(** * Floor price estimation: the core of [cbnftfloorprice] and its driver

    A shallow embedding of [cbnftfloorprice.py] and of the pipeline of
    [run_cbnftfloorprice.py].

    Numbers.  A finite Python [float] is modelled by an exact rational
    ([Q]); arithmetic is exact, so rounding and overflow are outside that
    model.  Where the code can produce a not-a-number, the value is an
    [option Q] whose [None] is NaN.  Python [int]s are [Z].  The outlier
    filter, whose result can turn on the last bit of a bound, is modelled a
    second time on IEEE 754 doubles, in the module [Double].

    Tables.  A pandas [DataFrame] is the list of its rows, in row order. *)

From Stdlib Require Import QArith Qabs Qround ZArith Lia String Ascii.
From Stdlib Require Import Sorting.Sorted Sorting.Permutation.
From Stdlib Require Import Lqa.
From Stdlib Require Import Floats.SpecFloat.
From stdpp Require Import base list strings.

Local Open Scope Q_scope.

(** ** Python builtins on finite floats *)

Module Py.

(** [x < y] and [x <= y] on floats. *)
Definition ltb (x y : Q) : bool := negb (Qle_bool y x).
Definition leb (x y : Q) : bool := Qle_bool x y.

(** [min(a, b)]: the builtin keeps its first argument unless a later one
    is strictly smaller. *)
Definition min (a b : Q) : Q := if ltb b a then b else a.

(** [max(a, b)]: the builtin keeps its first argument unless a later one
    is strictly greater. *)
Definition max (a b : Q) : Q := if ltb a b then b else a.

(** What a call produces: a value, or a raised exception. *)
Inductive exn : Type := ValueError.

Inductive result (A : Type) : Type :=
| Ok (a : A)
| Raise (e : exn).
Global Arguments Ok {A} a.
Global Arguments Raise {A} e.

Definition bind {A B} (r : result A) (k : A -> result B) : result B :=
  match r with
  | Ok a => k a
  | Raise e => Raise e
  end.

(** A loop body run on every row, stopping at the first exception. *)
Fixpoint for_each {A B} (f : A -> result B) (rows : list A) : result (list B) :=
  match rows with
  | [] => Ok []
  | r :: rest =>
      bind (f r) (fun b => bind (for_each f rest) (fun bs => Ok (b :: bs)))
  end.

(** Resolution of one bound of a slice [start:stop] on a sequence of
    length [n]: a negative bound counts from the end, and every bound is
    clipped to [0, n]. *)
Definition slice_bound (n i : Z) : Z :=
  if (i <? 0)%Z then Z.max 0 (i + n) else Z.min i n.

(** [l[start:stop]] *)
Definition slice {A} (start stop : Z) (l : list A) : list A :=
  let n := Z.of_nat (length l) in
  let a := slice_bound n start in
  let b := slice_bound n stop in
  take (Z.to_nat (b - a)) (drop (Z.to_nat a) l).

(** [l[start:]] *)
Definition slice_from {A} (start : Z) (l : list A) : list A :=
  slice start (Z.of_nat (length l)) l.

End Py.

(** ** Floats that may be NaN *)

Module F.

Definition float : Type := option Q.
Definition nan : float := None.

Definition lift2 (f : Q -> Q -> Q) (x y : float) : float :=
  match x, y with
  | Some a, Some b => Some (f a b)
  | _, _ => None
  end.

Definition add : float -> float -> float := lift2 Qplus.
Definition sub : float -> float -> float := lift2 Qminus.
Definition mul : float -> float -> float := lift2 Qmult.

(** Every comparison with NaN is false. *)
Definition leb (x y : float) : bool :=
  match x, y with
  | Some a, Some b => Py.leb a b
  | _, _ => false
  end.
Definition geb (x y : float) : bool := leb y x.


End F.

(** ** Sorting

    Sorting is modelled by a stable insertion sort.  On values the sorted
    sequence does not depend on the algorithm; on rows it does only among
    rows with equal keys, which pandas may put in another order:
    [create_lookback_with] below takes the sort as an argument. *)

Section Sort.
Context {A : Type} (le : A -> A -> bool).

Fixpoint insert_sorted (x : A) (l : list A) : list A :=
  match l with
  | [] => [x]
  | y :: ys => if le x y then x :: y :: ys else y :: insert_sorted x ys
  end.

Fixpoint sort (l : list A) : list A :=
  match l with
  | [] => []
  | x :: xs => insert_sorted x (sort xs)
  end.
End Sort.

(** ** numpy and scipy on one-dimensional arrays *)

Definition np_sort : list Q -> list Q := sort Qle_bool.

(** [np.median]: NaN on an empty array, the middle value of the sorted
    array when the size is odd, the mean of the two middle values when it
    is even. *)
Definition np_median (a : list Q) : F.float :=
  let part := np_sort a in
  let sz := length a in
  if (sz =? 0)%nat then F.nan
  else if Nat.even sz
       then Some ((nth (sz / 2 - 1) part 0 + nth (sz / 2) part 0) / 2)
       else Some (nth (sz / 2) part 0).

(** [scipy.stats.median_abs_deviation] with its defaults ([center] is
    [np.median], [scale] is 1): the median of the absolute deviations from
    the median, NaN on an empty array. *)
Definition median_abs_deviation (x : list Q) : F.float :=
  match np_median x with
  | None => F.nan
  | Some med => np_median (map (fun v => Qabs (v - med)) x)
  end.

(** ** [remove_outliers] *)

(** The list comprehension [[float(elem) for elem in array
    if elem >= lb and elem <= ub]]. *)
Fixpoint keep_within (lb ub : F.float) (array : list Q) : list Q :=
  match array with
  | [] => []
  | elem :: rest =>
      if F.geb (Some elem) lb && F.leb (Some elem) ub
      then elem :: keep_within lb ub rest
      else keep_within lb ub rest
  end.

Definition remove_outliers (array : list Q) : list Q :=
  let array_median := np_median array in
  let array_mad := median_abs_deviation array in
  let lb := F.sub array_median (F.mul (Some 3) array_mad) in
  let ub := F.add array_median (F.mul (Some 3) array_mad) in
  keep_within lb ub array.

(** The filter of the specification: the values of the interval
    [[m - 3d, m + 3d]], bounds included. *)
Definition in_band (m d x : Q) : Prop := m - 3 * d <= x /\ x <= m + 3 * d.

#[global] Instance Qle_decision (x y : Q) : Decision (x <= y) :=
  match Qlt_le_dec y x with
  | left H => right (Qlt_not_le y x H)
  | right H => left H
  end.

#[global] Instance Qeq_decision (x y : Q) : Decision (x == y) := Qeq_dec x y.

#[global] Instance in_band_decision (m d x : Q) : Decision (in_band m d x).
Proof. unfold in_band. apply _. Defined.

(** ** [compute_new_quantile] *)

Definition compute_new_quantile
    (q_curr q_target q_obs speed pct_target_min pct_target_max : Q) : Q :=
  Py.min pct_target_max
    (Py.max pct_target_min (q_curr + speed * (q_target - q_obs))).


(** ** [compute_quantile] *)

(** [Series.dropna] *)
Definition dropna (array : list F.float) : list Q := omap id array.

(** [Series.quantile(q)] with linear interpolation: a quantile outside
    [[0, 1]] raises [ValueError]; an empty series gives NaN; otherwise the
    sorted values are interpolated at the position [(n - 1) * q]. *)
Definition series_quantile (values : list Q) (q : Q) : Py.result F.float :=
  if negb (Py.leb 0 q && Py.leb q 1) then Py.Raise Py.ValueError
  else
    let v := np_sort values in
    match length v with
    | O => Py.Ok F.nan
    | S n1 =>
        let h := inject_Z (Z.of_nat n1) * q in
        let lo := Qfloor h in
        let hi := Z.min (lo + 1) (Z.of_nat n1) in
        let a := nth (Z.to_nat lo) v 0 in
        let b := nth (Z.to_nat hi) v 0 in
        Py.Ok (Some (a + (h - inject_Z lo) * (b - a)))
    end.

Definition compute_quantile (array : list F.float) (quantile : Q)
  : Py.result F.float :=
  series_quantile (dropna array) quantile.

(** ** Trades *)

(** A row of the trade table as [create_lookback] keeps it.  The block
    number is an [int64] column whose values fit, so the cast
    [astype("int64")] leaves it unchanged. *)
Record Trade : Type := {
  chain_id : Z;
  contract_address : string;
  ds : string;
  block_number : Z;
  unix_timestamp : Z;
  log_price : Q
}.

(** The group key: chain and contract address. *)
Definition key : Type := Z * string.

Definition key_eqb (k1 k2 : key) : bool :=
  (fst k1 =? fst k2)%Z && String.eqb (snd k1) (snd k2).

Definition trade_key (t : Trade) : key := (chain_id t, contract_address t).

(** ** [create_lookback] *)

(** A row of the result: the trade with its two added columns. *)
Record LookbackRow : Type := {
  trade : Trade;
  log_prices_lookback : list Q;
  trade_id : Z
}.

(** The placeholder of the first row's window. *)
Definition sentinel : Q := -42.

(** [sort_values("block_number")] *)
Definition sort_by_block_number : list Trade -> list Trade :=
  sort (fun a b => (block_number a <=? block_number b)%Z).

(** The window appended at position [idx]: the two branches of the loop
    body. *)
Definition lookback_window (result : list Trade) (lookback : Z) (idx : nat)
  : list Q :=
  if (idx =? 0)%nat then [sentinel]
  else
    let idx_start := Z.max 0 (Z.of_nat idx - lookback) in
    let prices := map log_price (Py.slice idx_start (Z.of_nat idx) result) in
    prices.

(** One turn of the loop over [idx]: the state is the pair of the lists
    [lookback_prices] and [trade_ids], each extended at its end. *)
Definition lookback_step (result : list Trade) (lookback : Z)
    (st : list (list Q) * list Z) (idx : nat) : list (list Q) * list Z :=
  let '(lookback_prices, trade_ids) := st in
  (lookback_prices ++ [lookback_window result lookback idx],
   trade_ids ++ [Z.of_nat idx]).

(** Assignment of the two new columns, row by row. *)
Fixpoint set_columns (result : list Trade) (lookback_prices : list (list Q))
    (trade_ids : list Z) : list LookbackRow :=
  match result, lookback_prices, trade_ids with
  | t :: result', w :: lookback_prices', i :: trade_ids' =>
      {| trade := t; log_prices_lookback := w; trade_id := i |}
        :: set_columns result' lookback_prices' trade_ids'
  | _, _, _ => []
  end.

Definition create_lookback (data : list Trade) (lookback : Z)
  : list LookbackRow :=
  let result := sort_by_block_number data in
  let '(lookback_prices, trade_ids) :=
    foldl (lookback_step result lookback) ([], []) (seq 0 (length result)) in
  set_columns result lookback_prices trade_ids.

(** [create_lookback] over any implementation of [sort_values]: pandas
    sorts one column with quicksort, which is not stable, so that rows with
    the same block number may come out in any order. *)
Definition create_lookback_with (sort_values : list Trade -> list Trade)
    (data : list Trade) (lookback : Z) : list LookbackRow :=
  let result := sort_values data in
  let '(lookback_prices, trade_ids) :=
    foldl (lookback_step result lookback) ([], []) (seq 0 (length result)) in
  set_columns result lookback_prices trade_ids.


(** ** The driver [run_cbnftfloorprice] *)

Definition LOOKBACK : Z := 140.
Definition BACKTEST : Z := 800.
Definition PCT_TARGET : Q := 5 # 100.
Definition PCT_TARGET_MIN : Q := 2 # 100.
Definition PCT_TARGET_MAX : Q := 1 # 10.
Definition SPEED : Q := 1 # 2.

(** A record of [nft_trades.csv]. *)
Record CsvRow : Type := {
  csv_chain_id : Z;
  csv_contract_address : string;
  csv_ds : string;
  csv_block_number : Z;
  csv_unix_timestamp : Z;
  price_eth : Q
}.

Definition csv_key (r : CsvRow) : key :=
  (csv_chain_id r, csv_contract_address r).

(** Grouping.  The table is sorted by key when it is grouped, so the keys
    in order of first appearance are the sorted keys that [groupby]
    iterates over. *)
Fixpoint group_keys (ks : list key) : list key :=
  match ks with
  | [] => []
  | k :: rest => k :: List.filter (fun k' => negb (key_eqb k' k)) (group_keys rest)
  end.

Section GroupBy.
Context {A : Type} (key_of : A -> key).

(** The rows of one group, in table order. *)
Definition group (k : key) (df : list A) : list A :=
  List.filter (fun r => key_eqb (key_of r) k) df.

(** [df.groupby(keys).apply(f)]: the results of the groups, one after
    the other. *)
Definition groupby_apply {B : Type} (f : list A -> list B) (df : list A)
  : list B :=
  flat_map (fun k => f (group k df)) (group_keys (map key_of df)).
End GroupBy.

(** [sort_values(["chain_id", "contract_address", "block_number"])] *)
Definition trade_leb (a b : Trade) : bool :=
  match Z.compare (chain_id a) (chain_id b) with
  | Lt => true
  | Gt => false
  | Eq =>
      match String.compare (contract_address a) (contract_address b) with
      | Lt => true
      | Gt => false
      | Eq => (block_number a <=? block_number b)%Z
      end
  end.

(** [rank(method="first", ascending=False)] of the block number within the
    group of the row [t] at position [i]: one more than the number of rows
    of the group with a greater block number, plus the number of earlier
    rows of the group with the same block number. *)
Definition rank_first_descending (df : list Trade) (i : nat) (t : Trade) : Z :=
  1 + Z.of_nat (length (List.filter
        (fun u => key_eqb (trade_key u) (trade_key t)
                  && (block_number t <? block_number u)%Z) df))
    + Z.of_nat (length (List.filter
        (fun u => key_eqb (trade_key u) (trade_key t)
                  && (block_number u =? block_number t)%Z) (take i df))).

(** The rows kept by [df[df["rank"] < backtest + lookback * 2]]. *)
Definition retain_recent (backtest lookback : Z) (df : list Trade)
  : list Trade :=
  map fst
    (List.filter (fun p => (snd p <? backtest + lookback * 2)%Z)
       (imap (fun i t => (t, rank_first_descending df i t)) df)).

(** A row after the three row-wise passes "removing outliers", "compute
    target quantile" and "compute observed quantile".  The passes are
    row-wise and independent, so they are run here as one pass. *)
Record ScoredRow : Type := {
  lookback_row : LookbackRow;
  log_prices_lookback_no_outliers : list Q;
  log_price_target_quantile : F.float;
  price_smaller : bool
}.

Definition lookback_key (r : LookbackRow) : key := trade_key (trade r).
Definition scored_key (r : ScoredRow) : key := lookback_key (lookback_row r).

Definition score_row (r : LookbackRow) : Py.result ScoredRow :=
  let no_outliers := remove_outliers (log_prices_lookback r) in
  Py.bind (compute_quantile (map Some no_outliers) PCT_TARGET) (fun target =>
  Py.Ok {| lookback_row := r;
           log_prices_lookback_no_outliers := no_outliers;
           log_price_target_quantile := target;
           price_smaller := F.leb (Some (log_price (trade r))) target |}).

(** A row of [nft_trades_grouped_df]: the sums of [price_smaller] and of
    [one] over the group, and the two quantiles derived from them. *)
Record GroupStats : Type := {
  stats_key : key;
  sum_price_smaller : Z;
  sum_one : Z;
  quantile_obs : Q;
  quantile_adj : Q
}.

Definition group_stats (df : list ScoredRow) (k : key) : GroupStats :=
  let g := group scored_key k df in
  let smaller := Z.of_nat (length (List.filter price_smaller g)) in
  let one := Z.of_nat (length g) in
  let obs := inject_Z smaller / inject_Z one in
  {| stats_key := k;
     sum_price_smaller := smaller;
     sum_one := one;
     quantile_obs := obs;
     quantile_adj :=
       compute_new_quantile PCT_TARGET PCT_TARGET obs SPEED
         PCT_TARGET_MIN PCT_TARGET_MAX |}.

Definition grouped (df : list ScoredRow) : list GroupStats :=
  map (group_stats df) (group_keys (map scored_key df)).

(** A row after the left merge with the grouped table and the pass
    "computing adjusted log price". *)
Record AdjustedRow : Type := {
  scored_row : ScoredRow;
  stats : GroupStats;
  log_price_adj : F.float
}.

Definition adjusted_key (r : AdjustedRow) : key := scored_key (scored_row r).

(** A row without a match in the grouped table would carry a NaN
    [quantile_adj], which [Series.quantile] rejects. *)
Definition adjust_row (table : list GroupStats) (r : ScoredRow)
  : Py.result AdjustedRow :=
  match List.find (fun g => key_eqb (stats_key g) (scored_key r)) table with
  | None => Py.Raise Py.ValueError
  | Some g =>
      Py.bind
        (compute_quantile (map Some (log_prices_lookback_no_outliers r))
           (quantile_adj g))
        (fun adj => Py.Ok {| scored_row := r; stats := g; log_price_adj := adj |})
  end.

(** A record of the result table. *)
Record Estimate : Type := {
  adjusted_row : AdjustedRow;
  floor_price_est : F.float
}.

Section Driver.
(** [np.log] and [np.exp] are not rational functions; the driver is
    modelled for any two functions standing for them. *)
Context (np_log np_exp : Q -> Q).

Definition with_log_price (r : CsvRow) : Trade :=
  {| chain_id := csv_chain_id r;
     contract_address := csv_contract_address r;
     ds := csv_ds r;
     block_number := csv_block_number r;
     unix_timestamp := csv_unix_timestamp r;
     log_price := np_log (price_eth r) |}.

(** "preprocessing", up to the sort by key and block number. *)
Definition preprocess (csv : list CsvRow) : list Trade :=
  sort trade_leb
    (map with_log_price (List.filter (fun r => Py.ltb 0 (price_eth r)) csv)).

Definition estimate (r : AdjustedRow) : Estimate :=
  {| adjusted_row := r;
     floor_price_est := np_exp <$> log_price_adj r |}.

(** [main], returning the records it logs, one per collection.  The
    floor price estimate of a record is [np.exp] of its adjusted log
    price. *)
Definition main (csv : list CsvRow) : Py.result (list Estimate) :=
  let nft_trades_df := preprocess csv in
  let nft_trades_df := retain_recent BACKTEST LOOKBACK nft_trades_df in
  let nft_trades_df :=
    groupby_apply trade_key (fun x => create_lookback x LOOKBACK) nft_trades_df in
  let nft_trades_df :=
    groupby_apply lookback_key (Py.slice_from (- BACKTEST)) nft_trades_df in
  Py.bind (Py.for_each score_row nft_trades_df) (fun nft_trades_df =>
  let nft_trades_grouped_df := grouped nft_trades_df in
  Py.bind (Py.for_each (adjust_row nft_trades_grouped_df) nft_trades_df)
    (fun nft_trades_df =>
  let result_df :=
    groupby_apply adjusted_key (Py.slice_from (-1)) nft_trades_df in
  Py.Ok (map estimate result_df))).
End Driver.

(** ** [compute_quantile_obs] *)

(** A row of the input table: the columns of [create_lookback] and the
    boolean column [price_smaller]. *)
Record SignalRow : Type := {
  signal_row : LookbackRow;
  signal_price_smaller : bool
}.

(** A row of the result: the input row and its new column
    [quantile_obs]. *)
Record ObservedRow : Type := {
  observed_row : SignalRow;
  rolling_quantile_obs : F.float
}.

(** The cast of a boolean to a float. *)
Definition bool_to_float (b : bool) : Q := if b then 1 else 0.

Fixpoint sum (xs : list Q) : Q :=
  match xs with
  | [] => 0
  | x :: rest => x + sum rest
  end.

(** [Series.rolling(window).mean()] with the default [min_periods]: a
    negative window raises [ValueError]; the value at position [i] is the
    mean of the [window] values that end at [i], and NaN as long as fewer
    than [window] values are there, or when the window is empty. *)
Definition rolling_mean (window : Z) (xs : list Q) : Py.result (list F.float) :=
  if (window <? 0)%Z then Py.Raise Py.ValueError
  else
    Py.Ok (imap (fun i _ =>
                   let stop := (Z.of_nat i + 1)%Z in
                   if (window =? 0)%Z || (stop <? window)%Z then F.nan
                   else Some (sum (Py.slice (stop - window) stop xs)
                              / inject_Z window))
             xs).

(** [sort_values("trade_id")] *)
Definition sort_by_trade_id : list SignalRow -> list SignalRow :=
  sort (fun a b => (trade_id (signal_row a) <=? trade_id (signal_row b))%Z).

(** Assignment of the new column, row by row. *)
Fixpoint set_quantile_obs (result : list SignalRow) (column : list F.float)
  : list ObservedRow :=
  match result, column with
  | r :: result', q :: column' =>
      {| observed_row := r; rolling_quantile_obs := q |}
        :: set_quantile_obs result' column'
  | _, _ => []
  end.

Definition compute_quantile_obs (data : list SignalRow) (backtest : Z)
  : Py.result (list ObservedRow) :=
  let result := sort_by_trade_id data in
  Py.bind
    (rolling_mean backtest
       (map (fun r => bool_to_float (signal_price_smaller r)) result))
    (fun column => Py.Ok (set_quantile_obs result column)).

(** ** Sample data *)

Definition sample_trade (block : Z) (price : Q) : Trade :=
  {| chain_id := 1;
     contract_address := "0xa";
     ds := "2022-01-01";
     block_number := block;
     unix_timestamp := 0;
     log_price := price |}.

Definition sample_csv_row (address : string) (block : Z) (price : Q) : CsvRow :=
  {| csv_chain_id := 1;
     csv_contract_address := address;
     csv_ds := "2022-01-01";
     csv_block_number := block;
     csv_unix_timestamp := 0;
     price_eth := price |}.


(** ** The outlier filter in double precision

    [remove_outliers] compares its bounds with the values themselves, so
    that a value at the edge of the band is kept or dropped by the last bit
    of a bound, and a median that overflows empties the result.  Here the
    filter is modelled on IEEE 754 binary64 numbers, every operation
    rounded to nearest, ties to even, with infinities and NaN. *)

Module Double.

(** binary64: 53 bits of precision, exponents below 1024. *)
Definition prec : Z := 53.
Definition emax : Z := 1024.

Definition float : Type := spec_float.
Definition nan : float := S754_nan.

Definition add : float -> float -> float := SFadd prec emax.
Definition sub : float -> float -> float := SFsub prec emax.
Definition mul : float -> float -> float := SFmul prec emax.
Definition div : float -> float -> float := SFdiv prec emax.
Definition abs : float -> float := SFabs.

(** [x <= y], [x >= y] and [x == y]: false as soon as an operand is NaN;
    the two zeros are equal. *)
Definition leb : float -> float -> bool := SFleb.
Definition geb (x y : float) : bool := SFleb y x.
Definition eqb : float -> float -> bool := SFeqb.

Definition is_nan (x : float) : bool :=
  match x with
  | S754_nan => true
  | _ => false
  end.

(** A number: neither NaN nor an infinity. *)
Definition is_finite (x : float) : bool :=
  match x with
  | S754_zero _ | S754_finite _ _ _ => true
  | _ => false
  end.

(** [x == 0] *)
Definition is_zero (x : float) : bool :=
  match x with
  | S754_zero _ => true
  | _ => false
  end.

(** The double nearest to an integer: the conversion of a Python [int],
    and the value of an integral literal. *)
Definition of_int (n : Z) : float := binary_normalize prec emax n 0 false.

(** The double nearest to [n / 10 ^ k], for [n] below [2 ^ 53] and
    [k <= 22]: the value of a decimal literal such as [0.4], which is
    [decimal 4 1]. *)
Definition decimal (n k : Z) : float := div (of_int n) (of_int (10 ^ k)).

Definition np_sort : list float -> list float := sort leb.

(** [np.median]: NaN when a value is NaN and on an empty array; otherwise
    the middle value of the sorted array when the size is odd, and the mean
    of the two middle values, their sum divided by 2, when it is even. *)
Definition np_median (a : list float) : float :=
  let part := np_sort a in
  let sz := length a in
  if existsb is_nan a then nan
  else if (sz =? 0)%nat then nan
  else if Nat.even sz
       then div (add (nth (sz / 2 - 1) part nan) (nth (sz / 2) part nan))
              (of_int 2)
       else nth (sz / 2) part nan.

(** [scipy.stats.median_abs_deviation] with its defaults: the median of the
    absolute deviations from the median ([scale] is 1.0, and a division by
    1.0 returns its operand). *)
Definition median_abs_deviation (x : list float) : float :=
  let med := np_median x in
  np_median (map (fun v => abs (sub v med)) x).

(** The list comprehension [[float(elem) for elem in array
    if elem >= lb and elem <= ub]]. *)
Fixpoint keep_within (lb ub : float) (array : list float) : list float :=
  match array with
  | [] => []
  | elem :: rest =>
      if geb elem lb && leb elem ub
      then elem :: keep_within lb ub rest
      else keep_within lb ub rest
  end.

Definition remove_outliers (array : list float) : list float :=
  let array_median := np_median array in
  let array_mad := median_abs_deviation array in
  let lb := sub array_median (mul (of_int 3) array_mad) in
  let ub := add array_median (mul (of_int 3) array_mad) in
  keep_within lb ub array.

End Double.

(** The median of the specification, in double precision: [m] is the
    middle value of the values put in ascending order, or the mean of the
    two middle values when their number is even. *)
Definition is_median (values : list Double.float) (m : Double.float) : Prop :=
  exists ascending,
    Permutation ascending values
    /\ Sorted (fun x y => Double.leb x y = true) ascending
    /\ m = if Nat.even (length values)
           then Double.div
                  (Double.add
                     (nth (length values / 2 - 1) ascending Double.nan)
                     (nth (length values / 2) ascending Double.nan))
                  (Double.of_int 2)
           else nth (length values / 2) ascending Double.nan.
(** * Properties *)

(** ** Comparisons, [min] and [max] *)

Module PyFacts.

Lemma ltb_lt x y : Py.ltb x y = true <-> x < y.
Proof.
  unfold Py.ltb. rewrite negb_true_iff, <- not_true_iff_false, Qle_bool_iff.
  split; [apply Qnot_le_lt | apply Qlt_not_le].
Qed.

Lemma ltb_ge x y : Py.ltb x y = false <-> y <= x.
Proof. unfold Py.ltb. rewrite negb_false_iff. apply Qle_bool_iff. Qed.

Lemma leb_le x y : Py.leb x y = true <-> x <= y.
Proof. apply Qle_bool_iff. Qed.

Lemma leb_gt x y : Py.leb x y = false <-> y < x.
Proof.
  unfold Py.leb. rewrite <- not_true_iff_false, Qle_bool_iff.
  split; [apply Qnot_le_lt | apply Qlt_not_le].
Qed.

Lemma min_cases a b :
  (b < a /\ Py.min a b = b) \/ (a <= b /\ Py.min a b = a).
Proof.
  unfold Py.min. destruct (Py.ltb b a) eqn:E.
  - left. now apply ltb_lt in E.
  - right. now apply ltb_ge in E.
Qed.

Lemma max_cases a b :
  (a < b /\ Py.max a b = b) \/ (b <= a /\ Py.max a b = a).
Proof.
  unfold Py.max. destruct (Py.ltb a b) eqn:E.
  - left. now apply ltb_lt in E.
  - right. now apply ltb_ge in E.
Qed.

Lemma min_mono_r a b b' : b <= b' -> Py.min a b <= Py.min a b'.
Proof.
  intros H.
  destruct (min_cases a b) as [[? ->] | [? ->]],
           (min_cases a b') as [[? ->] | [? ->]]; lra.
Qed.

Lemma max_mono_r a b b' : b <= b' -> Py.max a b <= Py.max a b'.
Proof.
  intros H.
  destruct (max_cases a b) as [[? ->] | [? ->]],
           (max_cases a b') as [[? ->] | [? ->]]; lra.
Qed.

End PyFacts.

(** ** The quantile controller *)

Section Controller.
Variables q_curr q_target speed pct_target_min pct_target_max : Q.

Lemma compute_new_quantile_le_max q_obs :
  compute_new_quantile q_curr q_target q_obs speed
    pct_target_min pct_target_max <= pct_target_max.
Proof.
  unfold compute_new_quantile.
  match goal with |- Py.min ?a ?b <= _ =>
    destruct (PyFacts.min_cases a b) as [[? ->] | [? ->]] end; lra.
Qed.

Lemma compute_new_quantile_ge_min q_obs :
  pct_target_min <= pct_target_max ->
  pct_target_min <= compute_new_quantile q_curr q_target q_obs speed
                      pct_target_min pct_target_max.
Proof.
  intros H. unfold compute_new_quantile.
  match goal with |- _ <= Py.min ?a (Py.max ?b ?c) =>
    destruct (PyFacts.max_cases b c) as [[? ->] | [? ->]];
    [ destruct (PyFacts.min_cases a c) as [[? ->] | [? ->]]
    | destruct (PyFacts.min_cases a b) as [[? ->] | [? ->]] ] end; lra.
Qed.


(** C9: for [speed > 0] the result does not increase when [q_obs]
    increases. *)
Theorem compute_new_quantile_antitone q_obs1 q_obs2 :
  0 < speed -> q_obs1 <= q_obs2 ->
  compute_new_quantile q_curr q_target q_obs2 speed
    pct_target_min pct_target_max
  <= compute_new_quantile q_curr q_target q_obs1 speed
       pct_target_min pct_target_max.
Proof.
  intros Hs Ho. unfold compute_new_quantile.
  apply PyFacts.min_mono_r, PyFacts.max_mono_r. nra.
Qed.

(** C10: when [pct_target_min > pct_target_max], the result is
    [pct_target_max], whatever the other arguments are. *)
Theorem compute_new_quantile_inverted_bounds q_obs :
  pct_target_max < pct_target_min ->
  compute_new_quantile q_curr q_target q_obs speed
    pct_target_min pct_target_max = pct_target_max.
Proof.
  intros H. unfold compute_new_quantile.
  match goal with |- Py.min ?a (Py.max ?b ?c) = _ =>
    destruct (PyFacts.max_cases b c) as [[? ->] | [? ->]] end; unfold Py.min.
  - match goal with |- (if ?t then _ else _) = _ =>
      assert (t = false) as ->; [apply PyFacts.ltb_ge; lra | done] end.
  - match goal with |- (if ?t then _ else _) = _ =>
      assert (t = false) as ->; [apply PyFacts.ltb_ge; lra | done] end.
Qed.

End Controller.



Lemma compute_new_quantile_antitone_witness :
  compute_new_quantile PCT_TARGET PCT_TARGET (1 # 2) SPEED
    PCT_TARGET_MIN PCT_TARGET_MAX
  <= compute_new_quantile PCT_TARGET PCT_TARGET 0 SPEED
       PCT_TARGET_MIN PCT_TARGET_MAX.
Proof.
  apply (compute_new_quantile_antitone PCT_TARGET PCT_TARGET SPEED
           PCT_TARGET_MIN PCT_TARGET_MAX 0 (1 # 2)).
  - reflexivity.
  - vm_compute; discriminate.
Defined.

Lemma compute_new_quantile_inverted_bounds_witness :
  compute_new_quantile PCT_TARGET PCT_TARGET (1 # 2) SPEED
    PCT_TARGET_MAX PCT_TARGET_MIN = PCT_TARGET_MIN.
Proof.
  apply (compute_new_quantile_inverted_bounds PCT_TARGET PCT_TARGET SPEED
           PCT_TARGET_MAX PCT_TARGET_MIN (1 # 2)).
  reflexivity.
Defined.

(** ** Sorting *)

Section SortFacts.
Context {A : Type} (le : A -> A -> bool).

Lemma insert_sorted_perm x l : Permutation (insert_sorted le x l) (x :: l).
Proof.
  induction l as [| y ys IH]; simpl; [done |].
  destruct (le x y); [done |].
  rewrite IH. apply perm_swap.
Qed.

Lemma sort_perm l : Permutation (sort le l) l.
Proof.
  induction l as [| x xs IH]; simpl; [done |].
  rewrite insert_sorted_perm. now constructor.
Qed.

Lemma sort_length l : length (sort le l) = length l.
Proof. apply Permutation_length, sort_perm. Qed.

Lemma sort_nth_in l i d : (i < length l)%nat -> In (nth i (sort le l) d) l.
Proof.
  intros Hi. apply (Permutation_in _ (sort_perm l)), nth_In.
  now rewrite sort_length.
Qed.

(** A list that is already in order is left as it is. *)
Lemma sort_sorted_id l :
  Sorted (fun a b => le a b = true) l -> sort le l = l.
Proof.
  induction 1 as [| x xs Hs IH Hd]; simpl; [done |].
  rewrite IH. destruct Hd as [| y ys Hxy]; simpl; [done |].
  now rewrite Hxy.
Qed.

Hypothesis le_total : forall a b, le a b = true \/ le b a = true.

Lemma insert_sorted_sorted x l :
  Sorted (fun a b => le a b = true) l ->
  Sorted (fun a b => le a b = true) (insert_sorted le x l).
Proof.
  induction 1 as [| y ys Hs IH Hd]; simpl.
  - repeat constructor.
  - destruct (le x y) eqn:E.
    + repeat constructor; assumption.
    + constructor; [exact IH |].
      destruct Hd as [| z zs Hyz]; simpl.
      * constructor. destruct (le_total x y); congruence.
      * destruct (le x z); constructor; [| assumption].
        destruct (le_total x y); congruence.
Qed.

Lemma sort_sorted l : Sorted (fun a b => le a b = true) (sort le l).
Proof.
  induction l as [| x xs IH]; simpl; [constructor |].
  now apply insert_sorted_sorted.
Qed.

End SortFacts.

(** [np_sort] returns the values in ascending order. *)
Lemma np_sort_sorted (a : list Q) : Sorted Qle (np_sort a).
Proof.
  assert (H : Sorted (fun x y => Qle_bool x y = true) (np_sort a)).
  { apply sort_sorted. intros x y.
    rewrite !Qle_bool_iff. destruct (Qlt_le_dec x y); [left | right]; lra. }
  induction H as [| x xs _ IH Hd]; constructor; [exact IH |].
  destruct Hd; constructor. now apply Qle_bool_iff.
Qed.

Lemma np_sort_perm (a : list Q) : Permutation (np_sort a) a.
Proof. apply sort_perm. Qed.

(** ** The outlier filter *)

Lemma np_median_nil : np_median [] = None.
Proof. reflexivity. Qed.

Lemma np_median_is_Some (a : list Q) : a <> [] -> is_Some (np_median a).
Proof.
  intros Hne. unfold np_median.
  destruct a as [| x xs]; [done |]. simpl length.
  change (S (length xs) =? 0)%nat with false. cbv iota.
  destruct (Nat.even _); eauto.
Qed.

Lemma median_abs_deviation_is_Some (a : list Q) :
  a <> [] -> is_Some (median_abs_deviation a).
Proof.
  intros Hne. unfold median_abs_deviation.
  destruct (np_median_is_Some a Hne) as [m ->].
  apply np_median_is_Some. now destruct a.
Qed.




(** The comprehension is the filter by the two bounds. *)
Lemma keep_within_filter (lb ub : Q) (a : list Q) :
  keep_within (Some lb) (Some ub) a = filter (fun x => lb <= x /\ x <= ub) a.
Proof.
  induction a as [| x xs IH]; [done |]. simpl.
  rewrite filter_cons, IH. unfold F.geb, F.leb.
  destruct (Py.leb lb x) eqn:E1, (Py.leb x ub) eqn:E2; simpl;
    rewrite ?PyFacts.leb_le, ?PyFacts.leb_gt in *;
    case_decide; try done; lra.
Qed.

Lemma keep_within_nan_l (ub : F.float) (a : list Q) : keep_within None ub a = [].
Proof. induction a as [| x xs IH]; [done |]. simpl. exact IH. Qed.








Lemma remove_outliers_nil : remove_outliers [] = [].
Proof. reflexivity. Qed.

Lemma remove_outliers_unfold (a : list Q) (m d : Q) :
  np_median a = Some m -> median_abs_deviation a = Some d ->
  remove_outliers a = filter (in_band m d) a.
Proof.
  intros Hm Hd. unfold remove_outliers. rewrite Hm, Hd. simpl.
  apply keep_within_filter.
Qed.

(** A second pass only removes values. *)
Lemma remove_outliers_sublist (a : list Q) : remove_outliers a `sublist_of` a.
Proof.
  destruct a as [| x xs]; [done |].
  destruct (np_median_is_Some (x :: xs)) as [m Hm]; [done |].
  destruct (median_abs_deviation_is_Some (x :: xs)) as [d Hd]; [done |].
  rewrite (remove_outliers_unfold _ m d Hm Hd). apply sublist_filter.
Qed.





(** ** The outlier filter in double precision *)

(** *** Comparison of doubles *)

Lemma double_compare_antisym (x y : Double.float) :
  SFcompare y x = option_map CompOpp (SFcompare x y).
Proof.
  destruct x as [sx | sx | | sx mx ex], y as [sy | sy | | sy my ey];
    simpl; try reflexivity;
    try (destruct sx; reflexivity); try (destruct sy; reflexivity);
    try (destruct sx, sy; reflexivity).
  destruct sx, sy; simpl; try reflexivity;
    rewrite (Z.compare_antisym ex ey);
    destruct (ex ?= ey)%Z eqn:E; simpl; try reflexivity;
    rewrite ?CompOpp_involutive;
    [rewrite (Pos.compare_cont_antisym my mx Eq)
    | rewrite (Pos.compare_cont_antisym mx my Eq)]; reflexivity.
Qed.

Lemma double_compare_refl (x : Double.float) :
  Double.is_nan x = false -> SFcompare x x = Some Eq.
Proof.
  destruct x as [s | s | | s m e]; simpl; intros H; try discriminate;
    try (destruct s; reflexivity).
  destruct s; rewrite Z.compare_refl, Pos.compare_cont_refl; reflexivity.
Qed.

Lemma double_compare_is_Some (x y : Double.float) :
  Double.is_nan x = false -> Double.is_nan y = false ->
  exists c, SFcompare x y = Some c.
Proof.
  destruct x, y; simpl; intros Hx Hy; try discriminate; eauto.
Qed.

(** The sign of a zero does not matter in a comparison. *)
Lemma double_compare_zero_l (s s' : bool) (x : Double.float) :
  SFcompare (S754_zero s) x = SFcompare (S754_zero s') x.
Proof. destruct x; reflexivity. Qed.

Lemma double_compare_zero_r (s s' : bool) (x : Double.float) :
  SFcompare x (S754_zero s) = SFcompare x (S754_zero s').
Proof. destruct x; reflexivity. Qed.

(** On numbers and infinities, [<=] is total. *)
Lemma double_leb_total (x y : Double.float) :
  Double.is_nan x = false -> Double.is_nan y = false ->
  Double.leb x y = true \/ Double.leb y x = true.
Proof.
  intros Hx Hy. unfold Double.leb, SFleb.
  rewrite (double_compare_antisym x y).
  destruct (double_compare_is_Some x y Hx Hy) as [c ->].
  destruct c; simpl; auto.
Qed.

(** [m <= x <= m] is [x == m]. *)
Lemma double_leb_antisym (m x : Double.float) :
  Double.leb m x && Double.leb x m = Double.eqb x m.
Proof.
  unfold Double.leb, Double.eqb, SFleb, SFeqb.
  rewrite (double_compare_antisym x m).
  destruct (SFcompare x m) as [[| |] |]; reflexivity.
Qed.

Lemma double_eqb_refl (x : Double.float) :
  Double.is_finite x = true -> Double.eqb x x = true.
Proof.
  intros H. unfold Double.eqb, SFeqb.
  rewrite double_compare_refl; [reflexivity |]. now destruct x.
Qed.

(** *** Rounding never produces NaN *)

Lemma iter_pos_invariant {A} (P : A -> Prop) (f : A -> A) :
  (forall x, P x -> P (f x)) ->
  forall n x, P x -> P (SpecFloat.iter_pos f n x).
Proof.
  intros Hf. induction n as [n IH | n IH |]; intros x Hx; simpl; auto.
Qed.

Lemma shr_1_nonneg (mrs : shr_record) :
  (0 <= shr_m mrs)%Z -> (0 <= shr_m (shr_1 mrs))%Z.
Proof.
  destruct mrs as [m r s]. simpl.
  destruct m as [| [p | p |] | p]; simpl; lia.
Qed.

Lemma shr_fexp_nonneg (m e : Z) (l : location) :
  (0 <= m)%Z ->
  (0 <= shr_m (fst (shr_fexp Double.prec Double.emax m e l)))%Z.
Proof.
  intros Hm. unfold shr_fexp, shr.
  assert (H0 : (0 <= shr_m (shr_record_of_loc m l))%Z)
    by (destruct l as [| []]; exact Hm).
  destruct (_ - e)%Z; simpl; try exact H0.
  now apply (iter_pos_invariant (fun mrs => (0 <= shr_m mrs)%Z)),
    H0; [apply shr_1_nonneg].
Qed.

Lemma round_nearest_even_nonneg (m : Z) (l : location) :
  (0 <= m)%Z -> (0 <= round_nearest_even m l)%Z.
Proof.
  intros Hm. unfold round_nearest_even.
  destruct l as [| []]; try destruct (Z.even m); lia.
Qed.

Lemma binary_round_aux_not_nan (s : bool) (m e : Z) (l : location) :
  (0 <= m)%Z ->
  Double.is_nan (binary_round_aux Double.prec Double.emax s m e l) = false.
Proof.
  intros Hm. unfold binary_round_aux.
  pose proof (shr_fexp_nonneg m e l Hm) as H1.
  destruct (shr_fexp Double.prec Double.emax m e l) as [mrs' e'].
  simpl in H1.
  pose proof (shr_fexp_nonneg
                (round_nearest_even (shr_m mrs') (loc_of_shr_record mrs'))
                e' loc_Exact
                (round_nearest_even_nonneg _ _ H1)) as H2.
  destruct (shr_fexp Double.prec Double.emax _ e' loc_Exact) as [mrs'' e''].
  simpl in H2.
  destruct (shr_m mrs'') as [| p | p]; [reflexivity | | lia].
  now destruct (_ <=? _)%Z.
Qed.

Lemma binary_normalize_not_nan (m e : Z) (s : bool) :
  Double.is_nan (binary_normalize Double.prec Double.emax m e s) = false.
Proof.
  unfold binary_normalize, binary_round.
  destruct m as [| p | p]; [reflexivity | |];
    destruct (shl_align _ _ _) as [mz ez];
    now apply binary_round_aux_not_nan.
Qed.

Lemma double_add_not_nan (x y : Double.float) :
  Double.is_finite x = true -> Double.is_finite y = true ->
  Double.is_nan (Double.add x y) = false.
Proof.
  destruct x as [sx | | | sx mx ex], y as [sy | | | sy my ey];
    intros Hx Hy; try discriminate; unfold Double.add, SFadd;
    try reflexivity.
  - now destruct sx, sy.
  - apply binary_normalize_not_nan.
Qed.

(** The difference of a number and of a number or an infinity. *)
Lemma double_sub_not_nan (x y : Double.float) :
  Double.is_finite x = true -> Double.is_nan y = false ->
  Double.is_nan (Double.sub x y) = false.
Proof.
  destruct x as [sx | | | sx mx ex], y as [sy | sy | | sy my ey];
    intros Hx Hy; try discriminate; unfold Double.sub, SFsub;
    try reflexivity.
  - now destruct sx, sy.
  - apply binary_normalize_not_nan.
Qed.

Lemma double_of_int_2 : Double.of_int 2 = S754_finite false 4503599627370496 (-51).
Proof. reflexivity. Qed.

Lemma double_of_int_3 : Double.of_int 3 = S754_finite false 6755399441055744 (-51).
Proof. reflexivity. Qed.

Lemma double_halve_not_nan (x : Double.float) :
  Double.is_nan x = false ->
  Double.is_nan (Double.div x (Double.of_int 2)) = false.
Proof.
  rewrite double_of_int_2.
  destruct x as [sx | sx | | sx mx ex]; intros Hx; try discriminate;
    try reflexivity.
  unfold Double.div, SFdiv, SFdiv_core_binary.
  match goal with |- context [Z.div_eucl ?a ?b] =>
    pose proof (Z.div_eucl_eq a b ltac:(lia)) as E;
    pose proof (Z.mod_pos_bound a b ltac:(lia)) as B;
    assert (Ha : (0 <= a)%Z);
    [| unfold Z.modulo in B; destruct (Z.div_eucl a b) as [q r] eqn:Eqr]
  end.
  { destruct (_ - _ - _)%Z; try lia. apply Z.shiftl_nonneg. lia. }
  apply binary_round_aux_not_nan. nia.
Qed.

Lemma double_abs_not_nan (x : Double.float) :
  Double.is_nan x = false -> Double.is_nan (Double.abs x) = false.
Proof. now destruct x. Qed.

(** *** Sorting numbers *)

Lemma double_insert_sorted (x : Double.float) (l : list Double.float) :
  Double.is_nan x = false -> Forall (fun y => Double.is_nan y = false) l ->
  Sorted (fun a b => Double.leb a b = true) l ->
  Sorted (fun a b => Double.leb a b = true) (insert_sorted Double.leb x l).
Proof.
  intros Hx Hl Hs. induction Hs as [| y ys Hs IH Hd]; simpl.
  - repeat constructor.
  - apply Forall_cons in Hl as [Hy Hl].
    destruct (Double.leb x y) eqn:E.
    + repeat constructor; assumption.
    + assert (Hyx : Double.leb y x = true)
        by (destruct (double_leb_total x y Hx Hy); congruence).
      constructor; [now apply IH |].
      destruct Hd as [| z zs Hyz]; simpl.
      * now constructor.
      * destruct (Double.leb x z); now constructor.
Qed.

Lemma double_sort_not_nan (l : list Double.float) :
  Forall (fun y => Double.is_nan y = false) l ->
  Forall (fun y => Double.is_nan y = false) (Double.np_sort l).
Proof.
  intros H. rewrite Forall_forall in *. intros x Hx. apply H.
  apply list_elem_of_In. apply list_elem_of_In in Hx.
  apply (Permutation_in _ (sort_perm Double.leb l)), Hx.
Qed.

(** Without NaN, [np_sort] returns the values in ascending order. *)
Lemma double_np_sort_sorted (l : list Double.float) :
  Forall (fun y => Double.is_nan y = false) l ->
  Sorted (fun a b => Double.leb a b = true) (Double.np_sort l).
Proof.
  induction 1 as [| x xs Hx Hxs IH]; simpl; [constructor |].
  apply double_insert_sorted; [exact Hx | | exact IH].
  now apply double_sort_not_nan.
Qed.

Lemma double_existsb_is_nan (l : list Double.float) :
  Forall (fun y => Double.is_nan y = false) l ->
  existsb Double.is_nan l = false.
Proof. induction 1 as [| x xs Hx _ IH]; simpl; [done |]. now rewrite Hx. Qed.

Lemma double_finite_not_nan (l : list Double.float) :
  Forall (fun y => Double.is_finite y = true) l ->
  Forall (fun y => Double.is_nan y = false) l.
Proof. intros H. eapply Forall_impl; [exact H | now intros []]. Qed.

(** *** The median *)

(** The median of numbers is the median of the specification. *)
Lemma double_np_median_is_median (a : list Double.float) :
  a <> [] -> Forall (fun y => Double.is_nan y = false) a ->
  is_median a (Double.np_median a).
Proof.
  intros Hne Ha. exists (Double.np_sort a).
  split; [apply sort_perm |]. split; [now apply double_np_sort_sorted |].
  unfold Double.np_median. rewrite double_existsb_is_nan by exact Ha.
  destruct a; [done | reflexivity].
Qed.

(** The median of numbers is a number or an infinity. *)
Lemma double_np_median_not_nan (a : list Double.float) :
  a <> [] -> Forall (fun y => Double.is_finite y = true) a ->
  Double.is_nan (Double.np_median a) = false.
Proof.
  intros Hne Ha. unfold Double.np_median.
  rewrite double_existsb_is_nan by now apply double_finite_not_nan.
  destruct (Nat.eqb_spec (length a) 0) as [E | Hn];
    [destruct a; [done | discriminate E] |].
  assert (Hnth : forall i, (i < length a)%nat ->
            Double.is_finite (nth i (Double.np_sort a) Double.nan) = true).
  { intros i Hi. rewrite Forall_forall in Ha.
    apply Ha, list_elem_of_In, sort_nth_in, Hi. }
  assert (Hhalf : (length a / 2 < length a)%nat)
    by (apply Nat.div_lt; lia).
  destruct (Nat.even (length a)).
  - apply double_halve_not_nan, double_add_not_nan; apply Hnth; lia.
  - specialize (Hnth _ Hhalf). now destruct (nth _ _ _).
Qed.

(** *** The filter *)

Lemma double_keep_within_filter (lb ub : Double.float)
    (array : list Double.float) :
  Double.keep_within lb ub array
  = List.filter (fun x => Double.leb lb x && Double.leb x ub) array.
Proof.
  induction array as [| x xs IH]; [done |]. simpl. rewrite IH.
  reflexivity.
Qed.

Lemma double_filter_sublist (f : Double.float -> bool)
    (array : list Double.float) :
  List.filter f array `sublist_of` array.
Proof.
  induction array as [| x xs IH]; simpl; [constructor |].
  destruct (f x); now constructor.
Qed.

Lemma double_filter_ext (f g : Double.float -> bool)
    (array : list Double.float) :
  (forall x, f x = g x) -> List.filter f array = List.filter g array.
Proof.
  intros H. induction array as [| x xs IH]; simpl; [done |].
  now rewrite H, IH.
Qed.

(** With a deviation of zero, the two bounds compare as the median
    does. *)
Lemma double_band_zero (m d x : Double.float) :
  Double.is_zero d = true ->
  Double.leb (Double.sub m (Double.mul (Double.of_int 3) d)) x
  && Double.leb x (Double.add m (Double.mul (Double.of_int 3) d))
  = Double.eqb x m.
Proof.
  intros Hd. rewrite double_of_int_3.
  destruct d as [sd | | |]; try discriminate.
  rewrite <- double_leb_antisym.
  unfold Double.mul, SFmul, Double.sub, SFsub, Double.add, SFadd,
    Double.leb, SFleb.
  destruct m as [sm | sm | | sm mm em]; try reflexivity.
  destruct sm, sd; cbn [xorb];
    rewrite ?(double_compare_zero_l false true x),
            ?(double_compare_zero_r false true x); reflexivity.
Qed.

Lemma double_sub_diag (x : Double.float) :
  Double.is_finite x = true -> Double.is_zero (Double.sub x x) = true.
Proof.
  destruct x as [s | | | s m e]; intros H; try discriminate.
  - now destruct s.
  - unfold Double.sub, SFsub. cbv zeta. now rewrite Z.sub_diag.
Qed.

Lemma double_np_median_singleton (x : Double.float) :
  Double.is_nan x = false -> Double.np_median [x] = x.
Proof.
  intros H. unfold Double.np_median. simpl. now rewrite H.
Qed.

Lemma double_remove_outliers_unfold (array : list Double.float) :
  Double.remove_outliers array
  = List.filter
      (fun x =>
         Double.leb
           (Double.sub (Double.np_median array)
              (Double.mul (Double.of_int 3)
                 (Double.median_abs_deviation array))) x
         && Double.leb x
              (Double.add (Double.np_median array)
                 (Double.mul (Double.of_int 3)
                    (Double.median_abs_deviation array))))
      array.
Proof. unfold Double.remove_outliers. apply double_keep_within_filter. Qed.

Lemma double_remove_outliers_zero (array : list Double.float) :
  Double.is_zero (Double.median_abs_deviation array) = true ->
  Double.remove_outliers array
  = List.filter (fun x => Double.eqb x (Double.np_median array)) array.
Proof.
  intros Hd. rewrite double_remove_outliers_unfold.
  apply double_filter_ext. intros x. now apply double_band_zero.
Qed.

(** C3: in double precision, [remove_outliers] returns the values [x] of
    its input with [lb <= x <= ub], bounds included, in their input order,
    where [lb] and [ub] are [m - 3 * d] and [m + 3 * d] as the code rounds
    them; on numbers, [m] is the median of the input and [d] the median of
    the absolute deviations [|x - m|]; when [d] is zero the survivors are
    the values equal to [m]; a single number is returned unchanged. *)
Theorem remove_outliers_band (array : list Double.float) :
  let m := Double.np_median array in
  let d := Double.median_abs_deviation array in
  let lb := Double.sub m (Double.mul (Double.of_int 3) d) in
  let ub := Double.add m (Double.mul (Double.of_int 3) d) in
  Double.remove_outliers array
  = List.filter (fun x => Double.leb lb x && Double.leb x ub) array
  /\ Double.remove_outliers array `sublist_of` array
  /\ (array <> [] ->
      Forall (fun x => Double.is_finite x = true) array ->
      is_median array m
      /\ is_median (map (fun x => Double.abs (Double.sub x m)) array) d)
  /\ (Double.is_zero d = true ->
      Double.remove_outliers array
      = List.filter (fun x => Double.eqb x m) array)
  /\ (forall x, Double.is_finite x = true -> array = [x] ->
      Double.remove_outliers array = [x]).
Proof.
  cbv zeta. split; [apply double_remove_outliers_unfold |].
  split; [rewrite double_remove_outliers_unfold;
          apply double_filter_sublist |].
  split; [| split].
  - intros Hne Hfin.
    pose proof (double_finite_not_nan _ Hfin) as Hnan.
    pose proof (double_np_median_not_nan _ Hne Hfin) as Hm.
    split; [now apply double_np_median_is_median |].
    apply double_np_median_is_median; [now destruct array |].
    apply Forall_map. eapply Forall_impl; [exact Hfin |].
    intros x Hx. cbv beta.
    now apply double_abs_not_nan, double_sub_not_nan.
  - apply double_remove_outliers_zero.
  - intros x Hx ->.
    assert (Hn : Double.is_nan x = false) by now destruct x.
    assert (Hmed : Double.np_median [x] = x)
      by now apply double_np_median_singleton.
    assert (Hd : Double.is_zero (Double.median_abs_deviation [x]) = true).
    { unfold Double.median_abs_deviation. rewrite Hmed. simpl map.
      pose proof (double_sub_diag x Hx) as Hz.
      destruct (Double.sub x x) as [s | | |]; try discriminate.
      reflexivity. }
    rewrite (double_remove_outliers_zero _ Hd), Hmed. simpl.
    now rewrite double_eqb_refl.
Qed.

(** The input [[0.4, 0.5, 0.6, 0.6]]: the median is 0.55, the deviations
    are rounded and their median is 0.04999999999999999, the lower bound is
    rounded to 0.4000000000000001, and 0.4 is dropped, although it is at
    the edge of the band in exact arithmetic. *)
Lemma remove_outliers_rounded_bound :
  Double.remove_outliers
    [Double.decimal 4 1; Double.decimal 5 1; Double.decimal 6 1;
     Double.decimal 6 1]
  = [Double.decimal 5 1; Double.decimal 6 1; Double.decimal 6 1].
Proof. vm_compute. reflexivity. Qed.

(** The input [[1.5e308, 1e308]]: the sum of the two values overflows, the
    median is infinite, the bounds are NaN and nothing is kept. *)
Lemma remove_outliers_overflow :
  Double.remove_outliers
    [Double.of_int (15 * 10 ^ 307); Double.of_int (10 ^ 308)] = [].
Proof. vm_compute. reflexivity. Qed.

(** ** The quantile estimator *)

(** On the empty series the estimator returns NaN; nothing is raised. *)
Lemma compute_quantile_empty_returns_nan :
  compute_quantile [None; None] PCT_TARGET = Py.Ok F.nan
  /\ forall e, compute_quantile [None; None] PCT_TARGET <> Py.Raise e.
Proof. split; [reflexivity | discriminate]. Qed.

(** C8, as amended: on a sequence that is empty once its missing values are
    dropped, and for a quantile of [[0, 1]], [compute_quantile] returns NaN
    and raises nothing. *)
Theorem compute_quantile_empty (array : list F.float) (quantile : Q) :
  dropna array = [] -> 0 <= quantile -> quantile <= 1 ->
  compute_quantile array quantile = Py.Ok F.nan.
Proof.
  intros He H0 H1. unfold compute_quantile, series_quantile. rewrite He.
  apply PyFacts.leb_le in H0, H1. now rewrite H0, H1.
Qed.

Lemma compute_quantile_empty_witness :
  compute_quantile [None; None] PCT_TARGET = Py.Ok F.nan.
Proof.
  apply compute_quantile_empty.
  - reflexivity.
  - vm_compute; discriminate.
  - vm_compute; discriminate.
Defined.

(** A quantile of [[0, 1]] never makes the estimator raise. *)
Lemma compute_quantile_ok (array : list F.float) (quantile : Q) :
  0 <= quantile -> quantile <= 1 ->
  exists v, compute_quantile array quantile = Py.Ok v.
Proof.
  intros H0 H1. unfold compute_quantile, series_quantile.
  apply PyFacts.leb_le in H0, H1. rewrite H0, H1. simpl.
  destruct (length _); eauto.
Qed.

(** ** The lookback builder *)

Lemma slice_nonneg {A} (start stop : nat) (l : list A) :
  (start <= stop <= length l)%nat ->
  Py.slice (Z.of_nat start) (Z.of_nat stop) l
  = take (stop - start) (drop start l).
Proof.
  intros H. unfold Py.slice, Py.slice_bound.
  destruct (Z.ltb_spec (Z.of_nat start) 0); [lia |].
  destruct (Z.ltb_spec (Z.of_nat stop) 0); [lia |].
  f_equal; [lia | f_equal; lia].
Qed.

Lemma lookback_loop (result : list Trade) (lookback : Z) (idxs : list nat)
    (lookback_prices : list (list Q)) (trade_ids : list Z) :
  foldl (lookback_step result lookback) (lookback_prices, trade_ids) idxs
  = (lookback_prices ++ map (lookback_window result lookback) idxs,
     trade_ids ++ map Z.of_nat idxs).
Proof.
  revert lookback_prices trade_ids.
  induction idxs as [| idx idxs IH]; intros lookback_prices trade_ids; simpl.
  - now rewrite !app_nil_r.
  - rewrite IH, <- !app_assoc. reflexivity.
Qed.

Lemma set_columns_lookup (f : nat -> list Q) (g : nat -> Z)
    (result : list Trade) (start idx : nat) (t : Trade) :
  result !! idx = Some t ->
  set_columns result (map f (seq start (length result)))
    (map g (seq start (length result))) !! idx
  = Some {| trade := t;
            log_prices_lookback := f (start + idx)%nat;
            trade_id := g (start + idx)%nat |}.
Proof.
  revert start idx. induction result as [| r result IH]; intros start idx H.
  - done.
  - simpl. destruct idx as [| idx]; simpl in *.
    + injection H as ->. now rewrite Nat.add_0_r.
    + rewrite (IH (S start) idx H). do 3 f_equal; lia.
Qed.

Lemma set_columns_trades (f : nat -> list Q) (g : nat -> Z)
    (result : list Trade) (start : nat) :
  map trade (set_columns result (map f (seq start (length result)))
               (map g (seq start (length result)))) = result.
Proof.
  revert start. induction result as [| r result IH]; intros start; [done |].
  simpl. now rewrite IH.
Qed.

Lemma create_lookback_unfold (data : list Trade) (lookback : Z) :
  create_lookback data lookback
  = let result := sort_by_block_number data in
    set_columns result
      (map (lookback_window result lookback) (seq 0 (length result)))
      (map Z.of_nat (seq 0 (length result))).
Proof. unfold create_lookback. now rewrite lookback_loop. Qed.

(** The rows of the result are the trades in block order, one row per
    trade. *)
Lemma create_lookback_trades (data : list Trade) (lookback : Z) :
  map trade (create_lookback data lookback) = sort_by_block_number data.
Proof. rewrite create_lookback_unfold. apply set_columns_trades. Qed.

Lemma create_lookback_length (data : list Trade) (lookback : Z) :
  length (create_lookback data lookback) = length data.
Proof.
  rewrite <- (length_map trade), create_lookback_trades.
  apply sort_length.
Qed.

Lemma create_lookback_lookup (data : list Trade) (lookback : Z)
    (idx : nat) (t : Trade) :
  sort_by_block_number data !! idx = Some t ->
  create_lookback data lookback !! idx
  = Some {| trade := t;
            log_prices_lookback :=
              lookback_window (sort_by_block_number data) lookback idx;
            trade_id := Z.of_nat idx |}.
Proof.
  intros H. rewrite create_lookback_unfold. cbv zeta.
  now rewrite (set_columns_lookup _ _ _ 0 idx t H).
Qed.


Lemma lookback_window_length (result : list Trade) (lookback : Z) (idx : nat) :
  (0 <= lookback)%Z -> (0 < idx)%nat ->
  (Z.of_nat (length (lookback_window result lookback idx)) <= lookback)%Z.
Proof.
  intros Hl Hidx. unfold lookback_window, Py.slice, Py.slice_bound.
  destruct (Nat.eqb_spec idx 0) as [-> | _]; [lia |]. cbv zeta.
  rewrite length_map, length_take, length_drop.
  destruct (Z.ltb_spec (Z.max 0 (Z.of_nat idx - lookback)) 0); [lia |].
  destruct (Z.ltb_spec (Z.of_nat idx) 0); lia.
Qed.

(** ** The lookback builder over any sort *)

Lemma create_lookback_with_stable (data : list Trade) (lookback : Z) :
  create_lookback_with sort_by_block_number data lookback
  = create_lookback data lookback.
Proof. reflexivity. Qed.








(** With [lookback = 0] the window of the first trade, the sentinel, is
    longer than [lookback]. *)
Lemma create_lookback_sentinel_exceeds_lookback :
  ~ (forall row, row ∈ create_lookback [sample_trade 1 1] 0 ->
       (Z.of_nat (length (log_prices_lookback row)) <= 0)%Z).
Proof.
  intros H.
  specialize (H {| trade := sample_trade 1 1;
                   log_prices_lookback := [sentinel];
                   trade_id := 0 |}).
  assert (Hin : {| trade := sample_trade 1 1;
                   log_prices_lookback := [sentinel];
                   trade_id := 0%Z |} ∈ create_lookback [sample_trade 1 1] 0)
    by (vm_compute; left).
  specialize (H Hin). simpl in H. lia.
Qed.

(** C6, as amended: for [lookback >= 0] there is one row per trade, the
    trades being those of the group in block order; the window of the first
    row is the sentinel [[-42.0]], of length 1; the window of every later
    row has at most [lookback] values. *)
Theorem create_lookback_shape (data : list Trade) (lookback : Z) :
  (0 <= lookback)%Z ->
  map trade (create_lookback data lookback) = sort_by_block_number data
  /\ length (create_lookback data lookback) = length data
  /\ forall idx row, create_lookback data lookback !! idx = Some row ->
       match idx with
       | O => log_prices_lookback row = [-42]
       | S _ => (Z.of_nat (length (log_prices_lookback row)) <= lookback)%Z
       end.
Proof.
  intros Hl. split; [apply create_lookback_trades |].
  split; [apply create_lookback_length |].
  intros idx row Hrow.
  assert (Hlt : (idx < length (sort_by_block_number data))%nat).
  { apply lookup_lt_Some in Hrow.
    rewrite create_lookback_length in Hrow.
    unfold sort_by_block_number. now rewrite sort_length. }
  destruct (lookup_lt_is_Some_2 _ _ Hlt) as [t Ht].
  rewrite (create_lookback_lookup data lookback idx t Ht) in Hrow.
  injection Hrow as <-. simpl.
  destruct idx as [| idx]; [reflexivity |].
  apply lookback_window_length; lia.
Qed.

Lemma create_lookback_shape_witness :
  length (create_lookback [sample_trade 2 2; sample_trade 1 1] 1) = 2%nat.
Proof.
  apply (create_lookback_shape [sample_trade 2 2; sample_trade 1 1] 1). lia.
Defined.

(** ** Retention of the recent trades *)

Lemma key_eqb_eq (k1 k2 : key) : key_eqb k1 k2 = true <-> k1 = k2.
Proof.
  destruct k1 as [c1 a1], k2 as [c2 a2]. unfold key_eqb. simpl.
  rewrite andb_true_iff, Z.eqb_eq, String.eqb_eq.
  split; [intros [-> ->]; reflexivity | intros [= -> ->]; done].
Qed.

Lemma key_eqb_refl (k : key) : key_eqb k k = true.
Proof. now apply key_eqb_eq. Qed.

Lemma filter_none {A} (p : A -> bool) (l : list A) :
  Forall (fun x => p x = false) l -> List.filter p l = [].
Proof.
  induction 1 as [| x xs Hx _ IH]; [done |]. simpl. now rewrite Hx.
Qed.

Lemma filter_all {A} (p : A -> bool) (l : list A) :
  Forall (fun x => p x = true) l -> List.filter p l = l.
Proof.
  induction 1 as [| x xs Hx _ IH]; [done |]. simpl. now rewrite Hx, IH.
Qed.

(** Keeping the ranks below [bound], when the ranks count down from [c]. *)
Lemma filter_countdown {A} (bound c : Z) (l : list A) :
  map fst (List.filter (fun p => (snd p <? bound)%Z)
             (imap (fun i t => (t, (c - Z.of_nat i)%Z)) l))
  = drop (Z.to_nat (c - bound + 1)) l.
Proof.
  revert c. induction l as [| x xs IH]; intros c.
  - now rewrite drop_nil.
  - rewrite imap_cons. simpl List.filter.
    rewrite (imap_ext _ (fun i t => (t, (c - 1 - Z.of_nat i)%Z)))
      by (intros; simpl; f_equal; lia).
    change (Z.of_nat 0) with 0%Z. rewrite Z.sub_0_r.
    destruct (Z.ltb_spec c bound).
    + simpl. rewrite IH.
      replace (Z.to_nat (c - 1 - bound + 1)) with 0%nat by lia.
      replace (Z.to_nat (c - bound + 1)) with 0%nat by lia.
      reflexivity.
    + rewrite IH.
      replace (Z.to_nat (c - bound + 1))
        with (S (Z.to_nat (c - 1 - bound + 1))) by lia.
      reflexivity.
Qed.

Lemma strongly_sorted_split (data : list Trade) (i : nat) (t : Trade) :
  StronglySorted (fun a b => (block_number a < block_number b)%Z) data ->
  data !! i = Some t ->
  Forall (fun u => (block_number u < block_number t)%Z) (take i data)
  /\ Forall (fun u => (block_number t < block_number u)%Z) (drop (S i) data).
Proof.
  intros Hs. revert i. induction Hs as [| x xs Hs IH Hx]; intros i Hi; [done |].
  destruct i as [| i]; simpl in *.
  - injection Hi as ->. split; [constructor | exact Hx].
  - destruct (IH i Hi) as [H1 H2]. split; [| exact H2].
    constructor; [| exact H1].
    rewrite Forall_forall in Hx. apply Hx. eapply list_elem_of_lookup_2, Hi.
Qed.

(** In a group with distinct, ascending block numbers, the rank of the
    trade at position [i] counts the trades from it to the end. *)
Lemma rank_first_descending_sorted (data : list Trade) (k : key)
    (i : nat) (t : Trade) :
  Forall (fun u => trade_key u = k) data ->
  StronglySorted (fun a b => (block_number a < block_number b)%Z) data ->
  data !! i = Some t ->
  rank_first_descending data i t = (Z.of_nat (length data) - Z.of_nat i)%Z.
Proof.
  intros Hk Hs Hi. unfold rank_first_descending.
  destruct (strongly_sorted_split data i t Hs Hi) as [Hlt Hgt].
  assert (Hkt : trade_key t = k).
  { rewrite Forall_forall in Hk. eapply Hk, list_elem_of_lookup_2, Hi. }
  assert (Hkeys :
            Forall (fun u => key_eqb (trade_key u) (trade_key t) = true) data).
  { eapply Forall_impl; [exact Hk |].
    intros u Hu. simpl in Hu. rewrite Hu, Hkt. apply key_eqb_refl. }
  rewrite (filter_none _ (take i data)).
  2:{ pose proof (Forall_take _ i _ Hkeys) as Hk1.
      rewrite Forall_forall in Hlt, Hk1 |- *. intros u Hu.
      rewrite (Hk1 u Hu). simpl. apply Z.eqb_neq.
      specialize (Hlt u Hu). lia. }
  rewrite <- (take_drop_middle data i t Hi) at 1.
  rewrite List.filter_app. simpl List.filter.
  rewrite (filter_none _ (take i data)).
  2:{ rewrite Forall_forall in Hlt |- *. intros u Hu.
      apply andb_false_iff. right. apply Z.ltb_ge.
      specialize (Hlt u Hu). lia. }
  rewrite Z.ltb_irrefl, andb_false_r.
  rewrite (filter_all _ (drop (S i) data)).
  2:{ pose proof (Forall_drop _ (S i) _ Hkeys) as Hk2.
      rewrite Forall_forall in Hgt, Hk2 |- *. intros u Hu.
      rewrite (Hk2 u Hu). simpl. apply Z.ltb_lt. now apply Hgt. }
  simpl. rewrite length_drop. apply lookup_lt_Some in Hi. lia.
Qed.

(** A group of [n] trades with distinct, ascending block numbers loses its
    first [n - (backtest + 2 * lookback) + 1] trades: the
    [backtest + 2 * lookback - 1] most recent ones remain. *)
Lemma retain_recent_sorted_group (backtest lookback : Z) (data : list Trade)
    (k : key) :
  Forall (fun u => trade_key u = k) data ->
  StronglySorted (fun a b => (block_number a < block_number b)%Z) data ->
  retain_recent backtest lookback data
  = drop (Z.to_nat (Z.of_nat (length data) - (backtest + lookback * 2) + 1))
      data.
Proof.
  intros Hk Hs. unfold retain_recent.
  rewrite (imap_ext _
             (fun i t => (t, (Z.of_nat (length data) - Z.of_nat i)%Z))).
  - apply filter_countdown.
  - intros i t Hi. simpl. f_equal.
    exact (rank_first_descending_sorted data k i t Hk Hs Hi).
Qed.

(** C2, on a group of exactly [BACKTEST + 2 * LOOKBACK = 1080] trades with
    block numbers 0 to 1079: the oldest trade is discarded, 1079 trades
    remain. *)
Theorem retain_recent_keeps_one_less :
  let data := map (fun i => sample_trade (Z.of_nat i) 0) (seq 0 1080) in
  Z.of_nat (length data) = (BACKTEST + 2 * LOOKBACK)%Z
  /\ retain_recent BACKTEST LOOKBACK data = drop 1 data
  /\ length (retain_recent BACKTEST LOOKBACK data) = 1079%nat.
Proof. vm_compute. repeat split. Qed.

(** ** Groups *)

Lemma key_eqb_neq (k1 k2 : key) : key_eqb k1 k2 = false <-> k1 <> k2.
Proof. rewrite <- key_eqb_eq. now destruct (key_eqb k1 k2). Qed.

Lemma group_keys_elem (k : key) (ks : list key) :
  In k (group_keys ks) <-> In k ks.
Proof.
  induction ks as [| k0 ks IH]; [done |]. simpl.
  rewrite filter_In, IH, negb_true_iff, key_eqb_neq.
  destruct (key_eqb k k0) eqn:E.
  - apply key_eqb_eq in E. subst. tauto.
  - apply key_eqb_neq in E. split; [tauto |]. intros [-> | H]; tauto.
Qed.

Lemma group_keys_NoDup (ks : list key) : List.NoDup (group_keys ks).
Proof.
  induction ks as [| k0 ks IH]; simpl; constructor.
  - rewrite filter_In, negb_true_iff, key_eqb_neq. tauto.
  - now apply List.NoDup_filter.
Qed.

Section GroupFacts.
Context {A : Type} (key_of : A -> key).

Lemma group_all (k : key) (df : list A) :
  Forall (fun r => key_of r = k) df -> group key_of k df = df.
Proof.
  intros H. apply filter_all. eapply Forall_impl; [exact H |].
  intros r Hr. simpl in Hr. rewrite Hr. apply key_eqb_refl.
Qed.

Lemma group_other (k k' : key) (df : list A) :
  k' <> k -> Forall (fun r => key_of r = k') df -> group key_of k df = [].
Proof.
  intros Hne H. apply filter_none. eapply Forall_impl; [exact H |].
  intros r Hr. simpl in Hr. rewrite Hr. now apply key_eqb_neq.
Qed.

Lemma group_forall (k : key) (df : list A) :
  Forall (fun r => key_of r = k) (group key_of k df).
Proof.
  apply Forall_forall. intros r Hr%list_elem_of_In.
  apply filter_In in Hr as [_ Hr]. now apply key_eqb_eq.
Qed.

Lemma group_absent (k : key) (df : list A) :
  ~ In k (map key_of df) -> group key_of k df = [].
Proof.
  intros H. apply filter_none, Forall_forall. intros r Hr%list_elem_of_In.
  apply key_eqb_neq. intros E. apply H. rewrite <- E. now apply in_map.
Qed.

Lemma group_app (k : key) (df1 df2 : list A) :
  group key_of k (df1 ++ df2) = group key_of k df1 ++ group key_of k df2.
Proof. apply List.filter_app. Qed.

Lemma group_elem (k : key) (df : list A) (r : A) :
  In r (group key_of k df) <-> In r df /\ key_of r = k.
Proof. unfold group. now rewrite filter_In, key_eqb_eq. Qed.

End GroupFacts.

Section GroupByFacts.
Context {A B : Type} (key_of : A -> key) (key_of' : B -> key).

(** The group [k] of the result of [groupby(...).apply(f)] is the result
    of [f] on the group [k], when [f] keeps the key of its rows. *)
Lemma group_flat_map (f : list A -> list B)
    (df : list A) (k : key) (ks : list key) :
  (forall g k', Forall (fun r => key_of r = k') g ->
                Forall (fun r => key_of' r = k') (f g)) ->
  List.NoDup ks ->
  (In k ks ->
   group key_of' k (flat_map (fun k' => f (group key_of k' df)) ks)
   = f (group key_of k df))
  /\ (~ In k ks ->
      group key_of' k (flat_map (fun k' => f (group key_of k' df)) ks) = []).
Proof.
  intros Hf Hnd. induction Hnd as [| k0 ks Hk0 Hnd [IH1 IH2]]; [done |].
  simpl flat_map. rewrite group_app.
  pose proof (Hf _ _ (group_forall key_of k0 df)) as Hk.
  destruct (key_eqb k0 k) eqn:E.
  - apply key_eqb_eq in E. subst k0.
    rewrite (group_all _ _ _ Hk), (IH2 Hk0), app_nil_r.
    split; [done |]. intros n. exfalso. apply n. now left.
  - apply key_eqb_neq in E. rewrite (group_other _ _ _ _ E Hk). simpl app.
    split.
    + intros [-> | i]; [done | now apply IH1].
    + intros n. apply IH2. intros i. apply n. now right.
Qed.

Lemma group_groupby_apply (f : list A -> list B) (df : list A) (k : key) :
  f [] = [] ->
  (forall g k', Forall (fun r => key_of r = k') g ->
                Forall (fun r => key_of' r = k') (f g)) ->
  group key_of' k (groupby_apply key_of f df) = f (group key_of k df).
Proof.
  intros Hnil Hf. unfold groupby_apply.
  destruct (group_flat_map f df k _ Hf (group_keys_NoDup
              (map key_of df))) as [H1 H2].
  destruct (in_dec (fun a b => decide (a = b)) k (group_keys (map key_of df)))
    as [i | n].
  - now apply H1.
  - rewrite (H2 n). rewrite group_keys_elem in n.
    now rewrite (group_absent _ _ _ n).
Qed.

End GroupByFacts.

(** ** Row-wise passes *)

Section ForEach.
Context {A B : Type} (f : A -> Py.result B).

Lemma for_each_ok (l : list A) :
  (forall a, In a l -> exists b, f a = Py.Ok b) ->
  exists l', Py.for_each f l = Py.Ok l'.
Proof.
  induction l as [| a l IH]; intros H; simpl; [eauto |].
  destruct (H a) as [b ->]; [now left |].
  destruct IH as [l' ->]; [intros; apply H; now right |].
  simpl. eauto.
Qed.

Lemma for_each_inv (l : list A) (l' : list B) :
  Py.for_each f l = Py.Ok l' -> Forall2 (fun a b => f a = Py.Ok b) l l'.
Proof.
  revert l'. induction l as [| a l IH]; intros l' H; simpl in H.
  - injection H as <-. constructor.
  - destruct (f a) as [b |] eqn:Ea; [| discriminate]. simpl in H.
    destruct (Py.for_each f l) as [bs |]; [| discriminate]. simpl in H.
    injection H as <-. constructor; [exact Ea | now apply IH].
Qed.

Lemma for_each_group (key_of : A -> key) (key_of' : B -> key)
    (l : list A) (l' : list B) (k : key) :
  (forall a b, f a = Py.Ok b -> key_of' b = key_of a) ->
  Forall2 (fun a b => f a = Py.Ok b) l l' ->
  Forall2 (fun a b => f a = Py.Ok b) (group key_of k l) (group key_of' k l').
Proof.
  intros Hk H. induction H as [| a b l l' Hab _ IH]; [constructor |].
  simpl. rewrite (Hk a b Hab).
  destruct (key_eqb (key_of a) k); [constructor |]; assumption.
Qed.

End ForEach.

(** ** The driver on a group of one trade *)

Lemma filter_perm {A} (p : A -> bool) (l l' : list A) :
  Permutation l l' -> Permutation (List.filter p l) (List.filter p l').
Proof.
  induction 1 as [| x l l' _ IH | x y l | l l' l'' _ IH1 _ IH2]; simpl.
  - done.
  - destruct (p x); [now constructor | exact IH].
  - destruct (p x), (p y); try done. apply perm_swap.
  - now rewrite IH1.
Qed.

Lemma filter_andb {A} (p q : A -> bool) (l : list A) :
  List.filter q (List.filter p l) = List.filter (fun x => p x && q x) l.
Proof.
  induction l as [| x l IH]; [done |]. simpl.
  destruct (p x); simpl; [destruct (q x) |]; now rewrite IH.
Qed.

Lemma filter_sublist {A} (p : A -> bool) (l l' : list A) :
  l `sublist_of` l' -> List.filter p l `sublist_of` List.filter p l'.
Proof.
  induction 1 as [| x l l' _ IH | x l l' _ IH]; simpl.
  - done.
  - destruct (p x); [now constructor | exact IH].
  - destruct (p x); [now constructor | exact IH].
Qed.

Lemma sublist_singleton {A} (l : list A) (x : A) :
  l `sublist_of` [x] -> In x l -> l = [x].
Proof.
  intros Hs Hin. apply sublist_cons_r in Hs as [Hs | (l' & -> & Hs)].
  - apply sublist_nil_r in Hs. now subst.
  - apply sublist_nil_r in Hs. now subst.
Qed.

(** The rows kept by the filter on the rank stay in their order. *)
Lemma retain_recent_sublist (backtest lookback : Z) (df : list Trade) :
  retain_recent backtest lookback df `sublist_of` df.
Proof.
  unfold retain_recent.
  generalize (rank_first_descending df) as f.
  generalize (fun p : Trade * Z => (snd p <? backtest + lookback * 2)%Z) as p.
  intros p f. induction df as [| t df IH] in f |- *; [done |].
  rewrite imap_cons. simpl.
  destruct (p (t, f 0%nat t)); simpl; constructor; apply IH.
Qed.

(** A trade alone in its group has rank 1. *)
Lemma rank_first_descending_alone (df : list Trade) (i : nat) (t : Trade) :
  df !! i = Some t ->
  group trade_key (trade_key t) df = [t] ->
  rank_first_descending df i t = 1%Z.
Proof.
  intros Hi Hg. unfold rank_first_descending.
  rewrite (filter_none _ df), (filter_none _ (take i df)); [done | |].
  - rewrite <- (take_drop_middle df i t Hi), group_app in Hg.
    simpl in Hg. rewrite key_eqb_refl in Hg.
    destruct (group trade_key (trade_key t) (take i df)) as [| u us] eqn:Et;
      [| destruct us; discriminate Hg].
    apply Forall_forall. intros u Hu%list_elem_of_In.
    destruct (key_eqb (trade_key u) (trade_key t)) eqn:E; [| done].
    exfalso. apply key_eqb_eq in E.
    assert (Hin : In u (group trade_key (trade_key t) (take i df)))
      by now apply group_elem.
    now rewrite Et in Hin.
  - apply Forall_forall. intros u Hu%list_elem_of_In.
    destruct (key_eqb (trade_key u) (trade_key t)) eqn:E; [| done].
    apply key_eqb_eq in E.
    assert (Hin : In u (group trade_key (trade_key t) df))
      by now apply group_elem.
    rewrite Hg in Hin. destruct Hin as [<- | []].
    simpl. apply Z.ltb_irrefl.
Qed.

Lemma retain_recent_alone (backtest lookback : Z) (df : list Trade)
    (t : Trade) :
  (1 < backtest + lookback * 2)%Z ->
  group trade_key (trade_key t) df = [t] ->
  group trade_key (trade_key t) (retain_recent backtest lookback df) = [t].
Proof.
  intros Hb Hg. apply sublist_singleton.
  - rewrite <- Hg. apply filter_sublist, retain_recent_sublist.
  - apply group_elem. split; [| done].
    assert (Hin : In t df).
    { apply (proj1 (group_elem trade_key (trade_key t) df t)).
      rewrite Hg. now left. }
    apply list_elem_of_In, list_elem_of_lookup in Hin as [i Hi].
    unfold retain_recent. apply in_map_iff.
    exists (t, rank_first_descending df i t). split; [done |].
    apply filter_In. split.
    + apply list_elem_of_In, list_elem_of_lookup. exists i.
      now rewrite list_lookup_imap, Hi.
    + simpl. rewrite (rank_first_descending_alone df i t Hi Hg).
      now apply Z.ltb_lt.
Qed.

(** The window filter and the estimator on the sentinel alone. *)
Lemma remove_outliers_sentinel : remove_outliers [sentinel] = [sentinel].
Proof. reflexivity. Qed.

Lemma compute_quantile_singleton (x quantile : Q) :
  0 <= quantile -> quantile <= 1 ->
  exists v, compute_quantile [Some x] quantile = Py.Ok (Some v) /\ v == x.
Proof.
  intros H0 H1. unfold compute_quantile, series_quantile.
  apply PyFacts.leb_le in H0, H1. rewrite H0, H1. simpl.
  eexists. split; [reflexivity |]. ring.
Qed.

Lemma create_lookback_single (t : Trade) (lookback : Z) :
  create_lookback [t] lookback
  = [{| trade := t; log_prices_lookback := [sentinel]; trade_id := 0 |}].
Proof. reflexivity. Qed.

Lemma create_lookback_keys (lookback : Z) (g : list Trade) (k : key) :
  Forall (fun t => trade_key t = k) g ->
  Forall (fun r => lookback_key r = k) (create_lookback g lookback).
Proof.
  intros H. unfold lookback_key.
  assert (Hs : Forall (fun t => trade_key t = k)
                 (map trade (create_lookback g lookback))).
  { rewrite create_lookback_trades. unfold sort_by_block_number.
    now rewrite sort_perm. }
  apply Forall_forall. intros r Hr.
  apply (proj1 (Forall_forall _ _) Hs (trade r)).
  now apply (list_elem_of_fmap_2 trade).
Qed.

Lemma slice_from_keys {A} (P : A -> Prop) (start : Z) (g : list A) :
  Forall P g -> Forall P (Py.slice_from start g).
Proof. intros H. unfold Py.slice_from, Py.slice. now apply Forall_take, Forall_drop. Qed.

Lemma slice_from_nil {A} (start : Z) : Py.slice_from start (@nil A) = [].
Proof. unfold Py.slice_from, Py.slice. now rewrite drop_nil, take_nil. Qed.

Lemma slice_from_single {A} (start : Z) (x : A) :
  (start < 0)%Z -> Py.slice_from start [x] = [x].
Proof.
  intros H. unfold Py.slice_from, Py.slice, Py.slice_bound. simpl length.
  destruct (Z.ltb_spec start 0); [| lia].
  replace (Z.max 0 (start + Z.of_nat 1)) with 0%Z by lia.
  reflexivity.
Qed.

Lemma score_row_ok (r : LookbackRow) : exists s, score_row r = Py.Ok s.
Proof.
  unfold score_row.
  destruct (compute_quantile_ok
              (map Some (remove_outliers (log_prices_lookback r))) PCT_TARGET)
    as [v ->]; [vm_compute; discriminate | vm_compute; discriminate |].
  simpl. eauto.
Qed.

Lemma score_row_inv (r : LookbackRow) (s : ScoredRow) :
  score_row r = Py.Ok s ->
  lookback_row s = r
  /\ log_prices_lookback_no_outliers s = remove_outliers (log_prices_lookback r).
Proof.
  unfold score_row. destruct (compute_quantile _ _); simpl; [| discriminate].
  intros [= <-]. done.
Qed.

Lemma score_row_key (r : LookbackRow) (s : ScoredRow) :
  score_row r = Py.Ok s -> scored_key s = lookback_key r.
Proof.
  intros H. apply score_row_inv in H as [H _]. unfold scored_key. now rewrite H.
Qed.

(** The adjusted quantile of a group lies in [[PCT_TARGET_MIN,
    PCT_TARGET_MAX]], hence in [[0, 1]]. *)
Lemma quantile_adj_range (df : list ScoredRow) (k : key) :
  0 <= quantile_adj (group_stats df k) /\ quantile_adj (group_stats df k) <= 1.
Proof.
  simpl.
  match goal with |- 0 <= compute_new_quantile ?c ?t ?o ?s ?lo ?hi /\ _ =>
    pose proof (compute_new_quantile_le_max c t s lo hi o) as Hmax;
    assert (Hlohi : lo <= hi) by (vm_compute; discriminate);
    pose proof (compute_new_quantile_ge_min c t s lo hi o Hlohi) as Hmin
  end.
  assert (0 <= PCT_TARGET_MIN) by (vm_compute; discriminate).
  assert (PCT_TARGET_MAX <= 1) by (vm_compute; discriminate).
  split; lra.
Qed.

Lemma grouped_find (df : list ScoredRow) (ks : list key) (k : key) :
  In k ks ->
  List.find (fun g => key_eqb (stats_key g) k) (map (group_stats df) ks)
  = Some (group_stats df k).
Proof.
  induction ks as [| k0 ks IH]; intros Hin; [done |].
  cbn [map List.find]. change (stats_key (group_stats df k0)) with k0.
  destruct (key_eqb k0 k) eqn:E.
  - apply key_eqb_eq in E. now subst.
  - apply IH. destruct Hin as [-> | Hin]; [| done].
    now rewrite key_eqb_refl in E.
Qed.

Lemma adjust_row_find (df : list ScoredRow) (s : ScoredRow) :
  In s df ->
  List.find (fun g => key_eqb (stats_key g) (scored_key s)) (grouped df)
  = Some (group_stats df (scored_key s)).
Proof.
  intros Hin. apply grouped_find, group_keys_elem. now apply in_map.
Qed.

Lemma adjust_row_ok (df : list ScoredRow) (s : ScoredRow) :
  In s df -> exists a, adjust_row (grouped df) s = Py.Ok a.
Proof.
  intros Hin. unfold adjust_row. rewrite (adjust_row_find df s Hin).
  destruct (quantile_adj_range df (scored_key s)) as [H0 H1].
  destruct (compute_quantile_ok
              (map Some (log_prices_lookback_no_outliers s)) _ H0 H1)
    as [v ->].
  simpl. eauto.
Qed.

Lemma adjust_row_key (table : list GroupStats) (s : ScoredRow)
    (a : AdjustedRow) :
  adjust_row table s = Py.Ok a -> adjusted_key a = scored_key s.
Proof.
  unfold adjust_row. destruct (List.find _ _); [| discriminate].
  destruct (compute_quantile _ _); simpl; [| discriminate].
  now intros [= <-].
Qed.

Lemma Forall2_singleton_l {A B} (R : A -> B -> Prop) (a : A) (l : list B) :
  Forall2 R [a] l -> exists b, l = [b] /\ R a b.
Proof.
  intros H. inversion H as [| ? b ? l' Hab Hl]; subst.
  inversion Hl; subst. eauto.
Qed.

Section DriverFacts.
Context (np_log np_exp : Q -> Q).

Lemma preprocess_group (csv : list CsvRow) (r : CsvRow) :
  List.filter
    (fun x => Py.ltb 0 (price_eth x) && key_eqb (csv_key x) (csv_key r)) csv
  = [r] ->
  group trade_key (csv_key r) (preprocess np_log csv)
  = [with_log_price np_log r].
Proof.
  intros H. apply Permutation_singleton_r. unfold preprocess, group.
  rewrite (filter_perm _ _ _ (sort_perm trade_leb _)).
  rewrite filter_map_swap, filter_andb.
  change (fun x : CsvRow =>
            Py.ltb 0 (price_eth x)
            && key_eqb (trade_key (with_log_price np_log x)) (csv_key r))
    with (fun x : CsvRow =>
            Py.ltb 0 (price_eth x) && key_eqb (csv_key x) (csv_key r)).
  now rewrite H.
Qed.

End DriverFacts.

(** A collection with one trade is not skipped: the driver returns a record
    for it, whose adjusted log price is the sentinel. *)
Lemma main_single_trade_not_skipped :
  exists e v,
    main (fun x => x) (fun x => x) [sample_csv_row "0xa" 7 3] = Py.Ok [e]
    /\ adjusted_key (adjusted_row e) = (1%Z, "0xa"%string)
    /\ log_price_adj (adjusted_row e) = Some v
    /\ v == -42
    /\ floor_price_est e = Some v.
Proof.
  eexists _, _. split; [vm_compute; reflexivity |].
  repeat split.
Qed.

(** C7, as amended: a collection whose trades of positive price are a
    single trade is not skipped and nothing is reported as failed.  The
    driver returns one record for it; the lookback window of that record is
    the sentinel [[-42.0]], which outlier removal keeps, and the adjusted
    log price is the sentinel, of which the floor price estimate is the
    exponential. *)
Theorem main_single_trade_group (np_log np_exp : Q -> Q)
    (csv : list CsvRow) (r : CsvRow) :
  List.filter
    (fun x => Py.ltb 0 (price_eth x) && key_eqb (csv_key x) (csv_key r)) csv
  = [r] ->
  exists records e v,
    main np_log np_exp csv = Py.Ok records
    /\ group (fun e => adjusted_key (adjusted_row e)) (csv_key r) records = [e]
    /\ trade (lookback_row (scored_row (adjusted_row e)))
       = with_log_price np_log r
    /\ log_prices_lookback (lookback_row (scored_row (adjusted_row e))) = [-42]
    /\ log_prices_lookback_no_outliers (scored_row (adjusted_row e)) = [-42]
    /\ log_price_adj (adjusted_row e) = Some v
    /\ v == -42
    /\ floor_price_est e = Some (np_exp v).
Proof.
  intros Hr.
  set (t := with_log_price np_log r).
  set (k := csv_key r).
  set (row0 := {| trade := t; log_prices_lookback := [sentinel]; trade_id := 0 |}).
  assert (Hkt : trade_key t = k) by reflexivity.
  (* the group through the stages before the row-wise passes *)
  pose proof (preprocess_group np_log csv r Hr) as G1. fold t k in G1.
  assert (G2 : group trade_key k
                 (retain_recent BACKTEST LOOKBACK (preprocess np_log csv)) = [t]).
  { rewrite <- Hkt in G1 |- *. now apply retain_recent_alone. }
  set (df2 := retain_recent BACKTEST LOOKBACK (preprocess np_log csv)) in *.
  set (df3 := groupby_apply trade_key (fun x => create_lookback x LOOKBACK) df2).
  assert (G3 : group lookback_key k df3 = [row0]).
  { unfold df3. rewrite group_groupby_apply.
    - now rewrite G2.
    - reflexivity.
    - intros g k'. apply create_lookback_keys. }
  set (df4 := groupby_apply lookback_key (Py.slice_from (- BACKTEST)) df3).
  assert (G4 : group lookback_key k df4 = [row0]).
  { unfold df4. rewrite group_groupby_apply.
    - rewrite G3. now apply slice_from_single.
    - apply slice_from_nil.
    - intros g k'. apply slice_from_keys. }
  (* the row-wise passes *)
  destruct (for_each_ok score_row df4) as [df5 H5];
    [intros; apply score_row_ok |].
  destruct (for_each_ok (adjust_row (grouped df5)) df5) as [df6 H6];
    [intros; now apply adjust_row_ok |].
  pose proof (for_each_group score_row lookback_key scored_key df4 df5 k
                score_row_key (for_each_inv _ _ _ H5)) as F5.
  rewrite G4 in F5. apply Forall2_singleton_l in F5 as (s0 & G5 & Hs0).
  pose proof (for_each_group (adjust_row (grouped df5)) scored_key adjusted_key
                df5 df6 k (adjust_row_key _) (for_each_inv _ _ _ H6)) as F6.
  rewrite G5 in F6. apply Forall2_singleton_l in F6 as (a0 & G6 & Ha0).
  set (result_df := groupby_apply adjusted_key (Py.slice_from (-1)) df6).
  assert (G7 : group adjusted_key k result_df = [a0]).
  { unfold result_df. rewrite group_groupby_apply.
    - rewrite G6. now apply slice_from_single.
    - apply slice_from_nil.
    - intros g k'. apply slice_from_keys. }
  (* the record of the group *)
  apply score_row_inv in Hs0 as [Hs0 Hno]. simpl in Hno.
  rewrite remove_outliers_sentinel in Hno.
  assert (Hin : In s0 df5).
  { apply (proj1 (group_elem scored_key k df5 s0)). rewrite G5. now left. }
  unfold adjust_row in Ha0. rewrite (adjust_row_find df5 s0 Hin), Hno in Ha0.
  destruct (quantile_adj_range df5 (scored_key s0)) as [Hq0 Hq1].
  destruct (compute_quantile_singleton sentinel _ Hq0 Hq1) as (v & Hv & Ev).
  simpl map in Ha0. rewrite Hv in Ha0. simpl in Ha0. injection Ha0 as <-.
  exists (map (estimate np_exp) result_df), (estimate np_exp
    {| scored_row := s0;
       stats := group_stats df5 (scored_key s0);
       log_price_adj := Some v |}), v.
  split.
  { unfold main. fold df2 df3 df4. rewrite H5. simpl. rewrite H6. reflexivity. }
  split.
  { unfold group. rewrite filter_map_swap.
    change (List.filter _ result_df) with (group adjusted_key k result_df).
    now rewrite G7. }
  simpl. rewrite Hs0, Hno. repeat split. exact Ev.
Qed.

Lemma main_single_trade_group_witness :
  exists records e v,
    main (fun x => x) (fun x => x)
      [sample_csv_row "0xb" 7 3; sample_csv_row "0xa" 7 3;
       sample_csv_row "0xb" 8 5] = Py.Ok records
    /\ group (fun e => adjusted_key (adjusted_row e)) (1%Z, "0xa"%string)
         records = [e]
    /\ log_price_adj (adjusted_row e) = Some v
    /\ v == -42.
Proof.
  destruct (main_single_trade_group (fun x => x) (fun x => x)
              [sample_csv_row "0xb" 7 3; sample_csv_row "0xa" 7 3;
               sample_csv_row "0xb" 8 5]
              (sample_csv_row "0xa" 7 3) eq_refl)
    as (records & e & v & H1 & H2 & _ & _ & _ & H3 & H4 & _).
  exists records, e, v. repeat split; assumption.
Defined.

(** * Further properties *)

(** ** Order statistics *)

Lemma np_sort_strongly_sorted (a : list Q) : StronglySorted Qle (np_sort a).
Proof.
  apply Sorted_StronglySorted; [| apply np_sort_sorted].
  intros x y z. apply Qle_trans.
Qed.

Lemma strongly_sorted_nth_le (l : list Q) (i j : nat) :
  StronglySorted Qle l -> (i <= j < length l)%nat ->
  nth i l 0 <= nth j l 0.
Proof.
  intros Hs. revert i j.
  induction Hs as [| x xs Hs IH Hx]; intros i j Hij; simpl in Hij; [lia |].
  destruct i as [| i], j as [| j]; simpl; try lia.
  - apply Qle_refl.
  - rewrite Forall_forall in Hx. apply Hx, list_elem_of_In, nth_In. lia.
  - apply IH. lia.
Qed.

Lemma np_sort_nth_le (a : list Q) (i j : nat) :
  (i <= j < length a)%nat -> nth i (np_sort a) 0 <= nth j (np_sort a) 0.
Proof.
  intros H. apply strongly_sorted_nth_le; [apply np_sort_strongly_sorted |].
  unfold np_sort. now rewrite sort_length.
Qed.

Lemma np_sort_nth_elem (a : list Q) (i : nat) :
  (i < length a)%nat -> nth i (np_sort a) 0 ∈ a.
Proof. intros H. now apply list_elem_of_In, sort_nth_in. Qed.


(** ** The quantile estimator between the extremes *)

(** The interpolation, spelled out: on [n1 + 1] sorted values the result
    lies between the values at the positions [lo] and [min (lo + 1) n1],
    where [lo] is the integer part of [n1 * quantile]. *)
Lemma series_quantile_interpolation (values : list Q) (quantile : Q) :
  values <> [] -> 0 <= quantile -> quantile <= 1 ->
  exists (lo : nat) (g : Q),
    let s := np_sort values in
    let hi := Nat.min (lo + 1) (length values - 1) in
    series_quantile values quantile
    = Py.Ok (Some (nth lo s 0 + g * (nth hi s 0 - nth lo s 0)))
    /\ (lo <= length values - 1)%nat
    /\ 0 <= g /\ g < 1
    /\ g == inject_Z (Z.of_nat (length values - 1)) * quantile
            - inject_Z (Z.of_nat lo).
Proof.
  intros Hne H0 H1. unfold series_quantile.
  pose proof H0 as B0. pose proof H1 as B1.
  apply PyFacts.leb_le in B0, B1. rewrite B0, B1. cbn [andb negb].
  assert (Hlen : length (np_sort values) = length values)
    by apply sort_length.
  destruct (length (np_sort values)) as [| n1] eqn:En;
    [destruct values; [done | discriminate Hlen] |].
  cbv zeta. rewrite <- Hlen. simpl Nat.sub. rewrite Nat.sub_0_r.
  set (h := inject_Z (Z.of_nat n1) * quantile).
  assert (Hn1 : 0 <= inject_Z (Z.of_nat n1)).
  { change 0 with (inject_Z 0). rewrite <- Zle_Qle. lia. }
  assert (Hh0 : 0 <= h) by (unfold h; nra).
  assert (Hh1 : h <= inject_Z (Z.of_nat n1)) by (unfold h; nra).
  pose proof (Qfloor_le h) as Hfl.
  pose proof (Qlt_floor h) as Hfu.
  assert (Hlo0 : (0 <= Qfloor h)%Z).
  { rewrite <- (Qfloor_Z 0). now apply Qfloor_resp_le. }
  assert (Hlo1 : (Qfloor h <= Z.of_nat n1)%Z).
  { rewrite <- (Qfloor_Z (Z.of_nat n1)). now apply Qfloor_resp_le. }
  rewrite inject_Z_plus in Hfu. change (inject_Z 1) with 1 in Hfu.
  exists (Z.to_nat (Qfloor h)), (h - inject_Z (Qfloor h)).
  replace (Z.to_nat (Z.min (Qfloor h + 1) (Z.of_nat n1)))
    with (Nat.min (Z.to_nat (Qfloor h) + 1) n1) by lia.
  rewrite Z2Nat.id by exact Hlo0.
  split; [reflexivity |]. split; [lia |]. split; [lra |].
  split; [lra | reflexivity].
Qed.

(** On at least one non-missing value and for a quantile of [[0, 1]], the
    result is a number that lies between two of the values. *)
Lemma compute_quantile_in_range (array : list F.float) (quantile : Q) :
  dropna array <> [] -> 0 <= quantile -> quantile <= 1 ->
  exists v a b,
    compute_quantile array quantile = Py.Ok (Some v)
    /\ a ∈ dropna array /\ b ∈ dropna array /\ a <= v /\ v <= b.
Proof.
  intros Hne H0 H1. unfold compute_quantile.
  destruct (series_quantile_interpolation _ _ Hne H0 H1)
    as (lo & g & Hv & Hlo & Hg0 & Hg1 & _).
  cbv zeta in Hv.
  assert (Hpos : (0 < length (dropna array))%nat)
    by (destruct (dropna array); [done | simpl; lia]).
  pose proof (np_sort_nth_le (dropna array) lo
                (Nat.min (lo + 1) (length (dropna array) - 1))
                ltac:(lia)) as Hab.
  eexists _, (nth lo (np_sort (dropna array)) 0),
    (nth (Nat.min (lo + 1) (length (dropna array) - 1))
       (np_sort (dropna array)) 0).
  split; [exact Hv |].
  split; [apply np_sort_nth_elem; lia |].
  split; [apply np_sort_nth_elem; lia |].
  split; nra.
Qed.



(** ** The outlier filter keeps the central half *)

Lemma filter_length_mono {A} (P R : A -> Prop)
    `{!forall x, Decision (P x)} `{!forall x, Decision (R x)} (l : list A) :
  (forall x, x ∈ l -> P x -> R x) ->
  (length (filter P l) <= length (filter R l))%nat.
Proof.
  induction l as [| x l IH]; intros Himp; [done |].
  rewrite !filter_cons.
  assert (IH' : (length (filter P l) <= length (filter R l))%nat).
  { apply IH. intros y Hy. apply Himp. now right. }
  destruct (decide (P x)) as [Hp |]; destruct (decide (R x)) as [| Hr];
    simpl; try lia.
  exfalso. apply Hr, Himp; [now left | done].
Qed.

Lemma filter_length_fmap {A B} (f : A -> B) (P : B -> Prop)
    `{!forall y, Decision (P y)} (l : list A) :
  length (filter P (map f l)) = length (filter (fun x => P (f x)) l).
Proof.
  induction l as [| x l IH]; [done |]. simpl map.
  rewrite !filter_cons. destruct (decide (P (f x))); simpl; now rewrite IH.
Qed.

(** The first [k] of the sorted values are at most the median, where [k]
    is at least half the number of values. *)
Lemma np_median_lower_half (a : list Q) (m : Q) :
  np_median a = Some m ->
  exists k, (length a <= 2 * k)%nat /\ (0 < k <= length a)%nat
            /\ forall i, (i < k)%nat -> nth i (np_sort a) 0 <= m.
Proof.
  unfold np_median.
  destruct (Nat.eqb_spec (length a) 0) as [| Hn]; [discriminate |].
  pose proof (Nat.div_mod_eq (length a) 2) as Hdiv.
  pose proof (Nat.mod_upper_bound (length a) 2) as Hmod.
  destruct (Nat.even (length a)) eqn:Ev; intros E;
    apply (inj Some) in E; subst m.
  - apply Nat.even_spec in Ev as [c Hc].
    assert (Hc2 : (length a / 2 = c)%nat).
    { rewrite Hc, Nat.mul_comm. now apply Nat.div_mul. }
    clear Hdiv Hmod.
    exists (length a / 2)%nat. rewrite Hc2. split; [lia |]. split; [lia |].
    intros i Hi.
    pose proof (np_sort_nth_le a i (c - 1)) as H1.
    pose proof (np_sort_nth_le a (c - 1) c) as H2.
    specialize (H1 ltac:(lia)). specialize (H2 ltac:(lia)).
    apply Qle_shift_div_l; [reflexivity |]. lra.
  - exists (S (length a / 2)).
    assert (Hodd : (length a mod 2 = 1)%nat).
    { rewrite <- Nat.negb_odd in Ev. apply negb_false_iff in Ev.
      apply Nat.odd_spec in Ev as [c Hc]. rewrite Hc.
      rewrite Nat.add_comm, Nat.mul_comm, Nat.Div0.mod_add. reflexivity. }
    split; [lia |]. split; [lia |].
    intros i Hi. apply np_sort_nth_le. lia.
Qed.

Lemma count_sorted_prefix (s : list Q) (d : Q) (k : nat) :
  (k <= length s)%nat ->
  (forall i, (i < k)%nat -> nth i s 0 <= d) ->
  (k <= length (filter (fun y : Q => (y <= d)%Q) s))%nat.
Proof.
  intros Hk H. rewrite <- (take_drop k s), filter_app, length_app.
  assert (E : filter (fun y => y <= d) (take k s) = take k s).
  { clear Hk. revert k H. induction s as [| x s IH]; intros k H.
    - now rewrite take_nil.
    - destruct k as [| k]; [done |]. simpl take. rewrite filter_cons.
      destruct (decide (x <= d)) as [| n];
        [| exfalso; apply n, (H 0%nat); lia].
      f_equal. apply IH. intros i Hi. apply (H (S i)). lia. }
  rewrite E, length_take. lia.
Qed.

Lemma remove_outliers_half (array : list Q) :
  (length array <= 2 * length (remove_outliers array))%nat.
Proof.
  { destruct array as [| x0 xs]; [simpl; lia |].
    set (array := x0 :: xs).
    destruct (np_median_is_Some array) as [m Hm]; [done |].
    destruct (median_abs_deviation_is_Some array) as [d Hd]; [done |].
    rewrite (remove_outliers_unfold array m d Hm Hd).
    unfold median_abs_deviation in Hd. rewrite Hm in Hd.
    set (devs := map (fun v => Qabs (v - m)) array) in *.
    destruct (np_median_lower_half devs d Hd) as (k & Hk2 & Hk & Hle).
    assert (Hlen : length devs = length array) by apply length_map.
    assert (Hd0 : 0 <= d).
    { eapply Qle_trans; [| apply (Hle 0%nat); lia].
      assert (Hin : nth 0 (np_sort devs) 0 ∈ devs)
        by (apply np_sort_nth_elem; lia).
      apply list_elem_of_fmap in Hin as (v & -> & _). apply Qabs_nonneg. }
    assert (Hcount : (k <= length (filter (fun y : Q => (y <= d)%Q) devs))%nat).
    { rewrite <- (np_sort_perm devs).
      apply count_sorted_prefix; [| exact Hle].
      unfold np_sort. rewrite sort_length. lia. }
    unfold devs in Hcount. rewrite filter_length_fmap in Hcount.
    assert (Hmono :
      (length (filter (fun v : Q => (Qabs (v - m) <= d)%Q) array)
       <= length (filter (in_band m d) array))%nat).
    { apply filter_length_mono. intros v _ Hv. unfold in_band.
      apply Qabs_Qle_condition in Hv as [H1 H2]. split; lra. }
    lia. }
Qed.

Lemma remove_outliers_nonempty (array : list Q) :
  array <> [] -> remove_outliers array <> [].
Proof.
  intros Hne E. pose proof (remove_outliers_half array) as H.
  rewrite E in H. destruct array; [done | simpl in H; lia].
Qed.



(** ** The rows of the lookback builder *)

Lemma set_columns_trade_ids (f : nat -> list Q) (g : nat -> Z)
    (result : list Trade) (start : nat) :
  map trade_id (set_columns result (map f (seq start (length result)))
                  (map g (seq start (length result))))
  = map g (seq start (length result)).
Proof.
  revert start. induction result as [| r result IH]; intros start; [done |].
  simpl. now rewrite IH.
Qed.

Lemma sort_by_block_number_ascending (data : list Trade) :
  Sorted (fun a b => (block_number a <= block_number b)%Z)
    (sort_by_block_number data).
Proof.
  assert (H : Sorted (fun a b => (block_number a <=? block_number b)%Z = true)
                (sort_by_block_number data)).
  { apply sort_sorted. intros a b. rewrite !Z.leb_le. lia. }
  induction H as [| x xs _ IH Hd]; constructor; [exact IH |].
  destruct Hd; constructor. now apply Z.leb_le.
Qed.

(** Whatever the order of the input rows, the result holds the same trades
    in ascending block order, and [trade_id] numbers them 0, 1, 2, ... in
    that order. *)
Theorem create_lookback_rows (data : list Trade) (lookback : Z) :
  Permutation (map trade (create_lookback data lookback)) data
  /\ Sorted (fun a b => (block_number a <= block_number b)%Z)
       (map trade (create_lookback data lookback))
  /\ map trade_id (create_lookback data lookback)
     = map Z.of_nat (seq 0 (length data)).
Proof.
  rewrite create_lookback_trades. split; [apply sort_perm |].
  split; [apply sort_by_block_number_ascending |].
  rewrite create_lookback_unfold. cbv zeta.
  rewrite set_columns_trade_ids. unfold sort_by_block_number.
  now rewrite sort_length.
Qed.

(** The window as a segment of the sorted trades. *)
Lemma lookback_window_segment (result : list Trade) (lookback : Z)
    (idx : nat) :
  (0 < idx <= length result)%nat ->
  lookback_window result lookback idx
  = map log_price
      (take (idx - Z.to_nat (Z.max 0 (Z.of_nat idx - lookback)))
         (drop (Z.to_nat (Z.max 0 (Z.of_nat idx - lookback))) result)).
Proof.
  intros Hidx. unfold lookback_window.
  destruct (Nat.eqb_spec idx 0) as [-> | _]; [lia |]. cbv zeta.
  destruct (Z.le_ge_cases 0 lookback) as [Hl | Hl].
  - remember (Z.to_nat (Z.max 0 (Z.of_nat idx - lookback))) as start eqn:Es.
    replace (Z.max 0 (Z.of_nat idx - lookback)) with (Z.of_nat start) by lia.
    rewrite slice_nonneg by lia. reflexivity.
  - unfold Py.slice, Py.slice_bound.
    destruct (Z.ltb_spec (Z.max 0 (Z.of_nat idx - lookback)) 0); [lia |].
    destruct (Z.ltb_spec (Z.of_nat idx) 0); [lia |].
    replace (idx - Z.to_nat (Z.max 0 (Z.of_nat idx - lookback)))%nat
      with 0%nat by lia.
    match goal with |- map _ (take ?n _) = _ =>
      replace n with 0%nat by lia end.
    reflexivity.
Qed.

Lemma create_lookback_lookup_inv (data : list Trade) (lookback : Z)
    (idx : nat) (row : LookbackRow) :
  create_lookback data lookback !! idx = Some row ->
  sort_by_block_number data !! idx = Some (trade row)
  /\ log_prices_lookback row
     = lookback_window (sort_by_block_number data) lookback idx.
Proof.
  intros Hrow.
  assert (Hlt : (idx < length (sort_by_block_number data))%nat).
  { apply lookup_lt_Some in Hrow.
    rewrite create_lookback_length in Hrow.
    unfold sort_by_block_number. now rewrite sort_length. }
  destruct (lookup_lt_is_Some_2 _ _ Hlt) as [t Ht].
  rewrite (create_lookback_lookup data lookback idx t Ht) in Hrow.
  injection Hrow as <-. done.
Qed.

(** The windows slide: the window of a row is the window of the row before
    it (nothing, for the first row, whose sentinel is not carried over)
    followed by the log price of that row, cut down to its last [lookback]
    values. *)
Theorem create_lookback_window_slides (data : list Trade) (lookback : Z)
    (idx : nat) (row next : LookbackRow) :
  (0 <= lookback)%Z ->
  create_lookback data lookback !! idx = Some row ->
  create_lookback data lookback !! S idx = Some next ->
  let before :=
    match idx with
    | O => []
    | S _ => log_prices_lookback row
    end ++ [log_price (trade row)] in
  log_prices_lookback next
  = drop (length before - Z.to_nat lookback) before.
Proof.
  intros Hl Hrow Hnext.
  apply create_lookback_lookup_inv in Hrow as [Ht Hw].
  apply create_lookback_lookup_inv in Hnext as [Ht' Hw'].
  set (result := sort_by_block_number data) in *.
  pose proof (lookup_lt_Some _ _ _ Ht') as Hlen.
  set (s := Z.to_nat (Z.max 0 (Z.of_nat idx - lookback))).
  assert (Hbefore :
    match idx with
    | O => []
    | S _ => log_prices_lookback row
    end ++ [log_price (trade row)]
    = map log_price (take (S idx - s) (drop s result))).
  { assert (Hs : (s <= idx)%nat) by (unfold s; lia).
    replace (S idx - s)%nat with (S (idx - s)) by lia.
    rewrite (take_S_r _ _ (trade row)).
    2:{ rewrite lookup_drop. rewrite <- Ht. f_equal. lia. }
    rewrite map_app. f_equal.
    destruct idx as [| idx']; [now replace s with 0%nat by (unfold s; lia) |].
    rewrite Hw. apply lookback_window_segment. lia. }
  cbv zeta. rewrite Hbefore, Hw', lookback_window_segment by lia.
  rewrite length_map, length_take, length_drop, skipn_map.
  rewrite skipn_firstn_comm, drop_drop. subst s.
  f_equal. f_equal; [lia | f_equal; lia].
Qed.

Lemma create_lookback_window_slides_witness :
  exists row next,
    create_lookback [sample_trade 1 1; sample_trade 2 2; sample_trade 3 3] 1
      !! 1%nat = Some row
    /\ create_lookback [sample_trade 1 1; sample_trade 2 2; sample_trade 3 3] 1
         !! 2%nat = Some next
    /\ log_prices_lookback next
       = drop 1 (log_prices_lookback row ++ [log_price (trade row)]).
Proof.
  eexists _, _. split; [reflexivity |]. split; [reflexivity |].
  exact (create_lookback_window_slides
           [sample_trade 1 1; sample_trade 2 2; sample_trade 3 3] 1 1 _ _
           ltac:(lia) eq_refl eq_refl).
Defined.

Lemma compute_quantile_nil (quantile : Q) :
  0 <= quantile -> quantile <= 1 -> compute_quantile [] quantile = Py.Ok F.nan.
Proof.
  intros H0 H1. unfold compute_quantile, series_quantile.
  apply PyFacts.leb_le in H0, H1. now rewrite H0, H1.
Qed.

(** Without a positive [lookback], every row after the first has an empty
    window; outlier removal leaves it empty, and the quantile estimator
    returns NaN on it. *)
Theorem create_lookback_no_history (data : list Trade) (lookback : Z)
    (idx : nat) (row : LookbackRow) (quantile : Q) :
  (lookback <= 0)%Z ->
  create_lookback data lookback !! S idx = Some row ->
  0 <= quantile -> quantile <= 1 ->
  log_prices_lookback row = []
  /\ compute_quantile
       (map Some (remove_outliers (log_prices_lookback row))) quantile
     = Py.Ok F.nan.
Proof.
  intros Hl Hrow H0 H1.
  assert (Hw : log_prices_lookback row = []).
  { apply create_lookback_lookup_inv in Hrow as [Ht ->].
    apply lookup_lt_Some in Ht.
    rewrite lookback_window_segment by lia.
    replace (S idx - Z.to_nat (Z.max 0 (Z.of_nat (S idx) - lookback)))%nat
      with 0%nat by lia.
    reflexivity. }
  split; [exact Hw |]. rewrite Hw.
  now apply compute_quantile_nil.
Qed.

Lemma create_lookback_no_history_witness :
  exists row,
    create_lookback [sample_trade 1 1; sample_trade 2 2] 0 !! 1%nat = Some row
    /\ log_prices_lookback row = [].
Proof.
  eexists. split; [reflexivity |].
  apply (create_lookback_no_history [sample_trade 1 1; sample_trade 2 2] 0 0
           _ (1 # 2)).
  - lia.
  - reflexivity.
  - vm_compute; discriminate.
  - vm_compute; discriminate.
Defined.

(** ** The rolling observed quantile *)

Lemma sum_bool_to_float {A} (p : A -> bool) (l : list A) :
  sum (map (fun r => bool_to_float (p r)) l)
  == inject_Z (Z.of_nat (length (List.filter p l))).
Proof.
  induction l as [| x l IH]; [reflexivity |]. simpl.
  rewrite IH. destruct (p x); simpl bool_to_float; simpl length.
  - rewrite Nat2Z.inj_succ, <- Z.add_1_l, inject_Z_plus. reflexivity.
  - ring.
Qed.

Lemma filter_length_le {A} (p : A -> bool) (l : list A) :
  (length (List.filter p l) <= length l)%nat.
Proof.
  induction l as [| x l IH]; [done |]. simpl.
  destruct (p x); simpl; lia.
Qed.

Lemma set_quantile_obs_rows (result : list SignalRow) (column : list F.float) :
  length column = length result ->
  map observed_row (set_quantile_obs result column) = result.
Proof.
  revert column. induction result as [| r result IH];
    intros [| q column] H; try done.
  simpl. rewrite IH; [done |]. simpl in H. lia.
Qed.

Lemma set_quantile_obs_lookup (result : list SignalRow)
    (column : list F.float) (i : nat) (row : ObservedRow) :
  set_quantile_obs result column !! i = Some row ->
  result !! i = Some (observed_row row)
  /\ column !! i = Some (rolling_quantile_obs row).
Proof.
  revert column i. induction result as [| r result IH];
    intros [| q column] i H; try done.
  destruct i as [| i]; simpl in *.
  - now injection H as <-.
  - now apply IH.
Qed.

(** For a window of at least one row, [compute_quantile_obs] raises
    nothing and returns the rows in [trade_id] order.  The new column is NaN
    on the first [backtest - 1] rows; on every later row it is the share of
    the rows with [price_smaller] among the [backtest] rows that end there,
    a number of [[0, 1]]. *)
Theorem compute_quantile_obs_rolling (data : list SignalRow) (backtest : Z) :
  (1 <= backtest)%Z ->
  exists rows,
    compute_quantile_obs data backtest = Py.Ok rows
    /\ map observed_row rows = sort_by_trade_id data
    /\ forall i row, rows !! i = Some row ->
         if (Z.of_nat i + 1 <? backtest)%Z
         then rolling_quantile_obs row = F.nan
         else exists v,
             rolling_quantile_obs row = Some v
             /\ v == inject_Z (Z.of_nat (length (List.filter signal_price_smaller
                        (take (Z.to_nat backtest)
                           (drop (S i - Z.to_nat backtest)
                              (sort_by_trade_id data))))))
                    / inject_Z backtest
             /\ 0 <= v /\ v <= 1.
Proof.
  intros Hb. unfold compute_quantile_obs, rolling_mean.
  set (result := sort_by_trade_id data).
  destruct (Z.ltb_spec backtest 0); [lia |].
  destruct (Z.eqb_spec backtest 0); [lia |]. cbn [orb Py.bind].
  eexists. split; [reflexivity |]. split.
  { apply set_quantile_obs_rows. now rewrite length_imap, length_map. }
  intros i row Hrow.
  apply set_quantile_obs_lookup in Hrow as [Hr Hq].
  rewrite list_lookup_imap, list_lookup_fmap, Hr in Hq. simpl in Hq.
  injection Hq as Hq. rewrite <- Hq.
  destruct (Z.ltb_spec (Z.of_nat i + 1) backtest) as [| Hfull]; [done |].
  eexists. split; [reflexivity |].
  apply lookup_lt_Some in Hr.
  set (w := Z.to_nat backtest).
  assert (Hslice :
    Py.slice (Z.of_nat i + 1 - backtest) (Z.of_nat i + 1)
      (map (fun r => bool_to_float (signal_price_smaller r)) result)
    = map (fun r => bool_to_float (signal_price_smaller r))
        (take w (drop (S i - w) result))).
  { replace (Z.of_nat i + 1 - backtest)%Z with (Z.of_nat (S i - w))
      by (unfold w; lia).
    replace (Z.of_nat i + 1)%Z with (Z.of_nat (S i)) by lia.
    rewrite slice_nonneg by (rewrite length_map; unfold w; lia).
    replace (S i - (S i - w))%nat with w by (unfold w; lia).
    change (@map SignalRow Q) with (@fmap list _ SignalRow Q).
    now rewrite <- fmap_drop, <- fmap_take. }
  rewrite Hslice, sum_bool_to_float.
  set (c := length (List.filter signal_price_smaller
                      (take w (drop (S i - w) result)))).
  assert (Hc : (c <= w)%nat).
  { unfold c. etransitivity; [apply filter_length_le |].
    rewrite length_take. lia. }
  split; [reflexivity |].
  assert (Hw : 0 < inject_Z backtest).
  { change 0 with (inject_Z 0). rewrite <- Zlt_Qlt. lia. }
  assert (Hc0 : 0 <= inject_Z (Z.of_nat c)).
  { change 0 with (inject_Z 0). rewrite <- Zle_Qle. lia. }
  assert (Hc1 : inject_Z (Z.of_nat c) <= inject_Z backtest).
  { rewrite <- Zle_Qle. unfold w in Hc. lia. }
  split.
  - apply Qle_shift_div_l; [exact Hw | lra].
  - apply Qle_shift_div_r; [exact Hw | lra].
Qed.

Lemma compute_quantile_obs_rolling_witness :
  exists rows,
    compute_quantile_obs
      [{| signal_row := {| trade := sample_trade 2 2;
                           log_prices_lookback := [1];
                           trade_id := 1 |};
          signal_price_smaller := true |};
       {| signal_row := {| trade := sample_trade 1 1;
                           log_prices_lookback := [sentinel];
                           trade_id := 0 |};
          signal_price_smaller := false |}] 2 = Py.Ok rows
    /\ map observed_row rows
       = sort_by_trade_id
           [{| signal_row := {| trade := sample_trade 2 2;
                                log_prices_lookback := [1];
                                trade_id := 1 |};
               signal_price_smaller := true |};
            {| signal_row := {| trade := sample_trade 1 1;
                                log_prices_lookback := [sentinel];
                                trade_id := 0 |};
               signal_price_smaller := false |}].
Proof.
  destruct (compute_quantile_obs_rolling
              [{| signal_row := {| trade := sample_trade 2 2;
                                   log_prices_lookback := [1];
                                   trade_id := 1 |};
                  signal_price_smaller := true |};
               {| signal_row := {| trade := sample_trade 1 1;
                                   log_prices_lookback := [sentinel];
                                   trade_id := 0 |};
                  signal_price_smaller := false |}] 2 ltac:(lia))
    as (rows & H1 & H2 & _).
  exists rows. split; assumption.
Defined.

(** ** The controller at equilibrium *)

(** When the observed quantile equals the target, a current quantile that
    lies within the bounds is returned as it is. *)
Theorem compute_new_quantile_equilibrium
    (q_curr q_target speed pct_target_min pct_target_max : Q) :
  pct_target_min <= q_curr -> q_curr <= pct_target_max ->
  compute_new_quantile q_curr q_target q_target speed
    pct_target_min pct_target_max == q_curr.
Proof.
  intros Hlo Hhi. unfold compute_new_quantile.
  set (raw := q_curr + speed * (q_target - q_target)).
  assert (Eraw : raw == q_curr) by (unfold raw; ring).
  destruct (PyFacts.max_cases pct_target_min raw) as [[? ->] | [? ->]].
  - destruct (PyFacts.min_cases pct_target_max raw) as [[? ->] | [? ->]]; lra.
  - destruct (PyFacts.min_cases pct_target_max pct_target_min)
      as [[? ->] | [? ->]]; lra.
Qed.

Lemma compute_new_quantile_equilibrium_witness :
  compute_new_quantile PCT_TARGET PCT_TARGET PCT_TARGET SPEED
    PCT_TARGET_MIN PCT_TARGET_MAX == PCT_TARGET.
Proof.
  apply compute_new_quantile_equilibrium; vm_compute; discriminate.
Defined.

(** ** The quantiles of a group in the driver *)

Lemma grouped_elem (df : list ScoredRow) (g : GroupStats) :
  In g (grouped df) ->
  exists s, In s df /\ g = group_stats df (scored_key s).
Proof.
  unfold grouped. intros (k & <- & Hk)%in_map_iff.
  apply group_keys_elem, in_map_iff in Hk as (s & <- & Hs). eauto.
Qed.

(** In the grouped table of the driver, the observed quantile of a group is
    the share of its rows with [price_smaller], a number of [[0, 1]]; the
    adjusted quantile is at least [PCT_TARGET_MIN] and stays below
    [PCT_TARGET_MAX]: the upper bound is never reached; once the observed
    quantile is 0.12 or more, the adjusted quantile is [PCT_TARGET_MIN]. *)
Theorem grouped_quantiles (df : list ScoredRow) (g : GroupStats) :
  In g (grouped df) ->
  (0 < sum_one g)%Z
  /\ sum_one g = Z.of_nat (length (group scored_key (stats_key g) df))
  /\ (0 <= sum_price_smaller g <= sum_one g)%Z
  /\ quantile_obs g == inject_Z (sum_price_smaller g) / inject_Z (sum_one g)
  /\ 0 <= quantile_obs g /\ quantile_obs g <= 1
  /\ PCT_TARGET_MIN <= quantile_adj g
  /\ quantile_adj g < PCT_TARGET_MAX
  /\ (12 # 100 <= quantile_obs g -> quantile_adj g = PCT_TARGET_MIN).
Proof.
  intros (s & Hs & ->)%grouped_elem. cbn [sum_one sum_price_smaller
    quantile_obs quantile_adj stats_key group_stats].
  set (grp := group scored_key (scored_key s) df).
  assert (Hin : In s grp) by (apply group_elem; done).
  assert (Hone : (0 < length grp)%nat) by (destruct grp; [done | simpl; lia]).
  pose proof (filter_length_le price_smaller grp) as Hsm.
  set (one := Z.of_nat (length grp)) in *.
  set (smaller := Z.of_nat (length (List.filter price_smaller grp))) in *.
  assert (H1 : 0 < inject_Z one).
  { change 0 with (inject_Z 0). rewrite <- Zlt_Qlt. unfold one. lia. }
  assert (H2 : 0 <= inject_Z smaller).
  { change 0 with (inject_Z 0). rewrite <- Zle_Qle. unfold smaller. lia. }
  assert (H3 : inject_Z smaller <= inject_Z one).
  { rewrite <- Zle_Qle. unfold smaller, one. lia. }
  set (obs := inject_Z smaller / inject_Z one).
  assert (Hobs0 : 0 <= obs) by (apply Qle_shift_div_l; [done | lra]).
  assert (Hobs1 : obs <= 1) by (apply Qle_shift_div_r; [done | lra]).
  split; [unfold one; lia |]. split; [reflexivity |].
  split; [unfold smaller, one; lia |]. split; [reflexivity |].
  split; [exact Hobs0 |]. split; [exact Hobs1 |].
  unfold compute_new_quantile, PCT_TARGET, PCT_TARGET_MIN, PCT_TARGET_MAX,
    SPEED.
  set (raw := (5 # 100) + (1 # 2) * ((5 # 100) - obs)).
  assert (Eraw : raw == (3 # 40) - (1 # 2) * obs) by (unfold raw; ring).
  split; [| split].
  - destruct (PyFacts.max_cases (2 # 100) raw) as [[? ->] | [? ->]];
      [destruct (PyFacts.min_cases (1 # 10) raw) as [[? ->] | [? ->]]
      | destruct (PyFacts.min_cases (1 # 10) (2 # 100)) as [[? ->] | [? ->]]];
      lra.
  - destruct (PyFacts.max_cases (2 # 100) raw) as [[? ->] | [? ->]];
      [destruct (PyFacts.min_cases (1 # 10) raw) as [[? ->] | [? ->]]
      | destruct (PyFacts.min_cases (1 # 10) (2 # 100)) as [[? ->] | [? ->]]];
      lra.
  - intros Hobs. unfold Py.max.
    assert (E : Py.ltb (2 # 100) raw = false)
      by (apply PyFacts.ltb_ge; lra).
    rewrite E. reflexivity.
Qed.

Lemma grouped_quantiles_witness :
  quantile_adj
    (group_stats
       [{| lookback_row :=
             {| trade := sample_trade 1 1;
                log_prices_lookback := [sentinel];
                trade_id := 0 |};
           log_prices_lookback_no_outliers := [sentinel];
           log_price_target_quantile := Some sentinel;
           price_smaller := false |}] (1%Z, "0xa"%string))
  < PCT_TARGET_MAX.
Proof.
  apply (grouped_quantiles
           [{| lookback_row :=
                 {| trade := sample_trade 1 1;
                    log_prices_lookback := [sentinel];
                    trade_id := 0 |};
               log_prices_lookback_no_outliers := [sentinel];
               log_price_target_quantile := Some sentinel;
               price_smaller := false |}]).
  left. reflexivity.
Defined.

(** ** Retention, group by group *)

Lemma retain_recent_sorted_group_witness :
  retain_recent 1 1
    [sample_trade 1 1; sample_trade 2 2; sample_trade 3 3; sample_trade 4 4]
  = [sample_trade 3 3; sample_trade 4 4].
Proof.
  apply (retain_recent_sorted_group 1 1
           [sample_trade 1 1; sample_trade 2 2; sample_trade 3 3;
            sample_trade 4 4] (1%Z, "0xa"%string)).
  - repeat constructor.
  - repeat constructor; simpl; lia.
Defined.

(** The rank of a row is computed within its group: it is the rank of the
    row in the table of its group alone. *)
Lemma rank_first_descending_group (df : list Trade) (i : nat) (t : Trade) :
  df !! i = Some t ->
  rank_first_descending df i t
  = rank_first_descending (group trade_key (trade_key t) df)
      (length (group trade_key (trade_key t) (take i df))) t.
Proof.
  intros Hi. unfold rank_first_descending.
  set (k := trade_key t).
  assert (Hsame : forall l (p : Trade -> bool),
            List.filter (fun u => key_eqb (trade_key u) k && p u) l
            = List.filter (fun u => key_eqb (trade_key u) k && p u)
                (group trade_key k l)).
  { intros l p. unfold group. rewrite filter_andb.
    apply filter_ext. intros u. now destruct (key_eqb (trade_key u) k). }
  rewrite (Hsame df), (Hsame (take i df)).
  do 3 f_equal.
  assert (E : group trade_key k df
              = group trade_key k (take i df) ++ group trade_key k (drop i df))
    by now rewrite <- group_app, take_drop.
  now rewrite E, take_app_length.
Qed.

Lemma group_cons {A} (key_of : A -> key) (k : key) (x : A) (l : list A) :
  group key_of k (x :: l)
  = if key_eqb (key_of x) k then x :: group key_of k l else group key_of k l.
Proof. reflexivity. Qed.

Lemma retain_recent_group_aux (bound : Z) (df p l : list Trade) (k : key) :
  df = p ++ l ->
  group trade_key k
    (map fst
       (List.filter (fun x => (snd x <? bound)%Z)
          (imap (fun i t => (t, rank_first_descending df (length p + i) t)) l)))
  = map fst
      (List.filter (fun x => (snd x <? bound)%Z)
         (imap (fun j t =>
                  (t, rank_first_descending (group trade_key k df)
                        (length (group trade_key k p) + j) t))
            (group trade_key k l))).
Proof.
  revert p. induction l as [| x l IH]; intros p Hdf; [done |].
  assert (Hdf' : df = (p ++ [x]) ++ l) by now rewrite <- app_assoc.
  specialize (IH (p ++ [x]) Hdf').
  rewrite length_app, group_app, (group_cons _ k x []) in IH.
  simpl length in IH.
  assert (Hx : df !! length p = Some x).
  { rewrite Hdf. now rewrite list_lookup_middle. }
  assert (Htake : take (length p) df = p).
  { rewrite Hdf. now rewrite take_app_length. }
  rewrite imap_cons, group_cons.
  rewrite (imap_ext (_ ∘ S) (fun i t =>
             (t, rank_first_descending df (length p + 1 + i) t)))
    by (intros; simpl; do 2 f_equal; lia).
  cbn [List.filter snd]. rewrite Nat.add_0_r.
  destruct (key_eqb (trade_key x) k) eqn:Ek.
  - apply key_eqb_eq in Ek.
    rewrite imap_cons.
    rewrite (imap_ext (_ ∘ S) (fun j t =>
               (t, rank_first_descending (group trade_key k df)
                     (length (group trade_key k p) + 1 + j) t)))
      by (intros; simpl; do 2 f_equal; lia).
    cbn [List.filter snd]. rewrite Nat.add_0_r.
    rewrite length_app in IH. simpl length in IH.
    rewrite (rank_first_descending_group df (length p) x Hx), Ek, Htake.
    destruct (_ <? bound)%Z; cbn [map fst].
    + rewrite group_cons, Ek, key_eqb_refl. f_equal. exact IH.
    + exact IH.
  - cbn [group List.filter] in IH. rewrite app_nil_r in IH.
    destruct (_ <? bound)%Z; cbn [map fst].
    + rewrite group_cons, Ek. exact IH.
    + exact IH.
Qed.

(** The retention filter acts on every group separately: the rows it keeps
    of a group are the rows it keeps when the table holds that group
    alone. *)
Theorem retain_recent_per_group (backtest lookback : Z) (df : list Trade)
    (k : key) :
  group trade_key k (retain_recent backtest lookback df)
  = retain_recent backtest lookback (group trade_key k df).
Proof.
  unfold retain_recent.
  rewrite (retain_recent_group_aux _ df [] df k eq_refl).
  reflexivity.
Qed.

(** ** The most recent trade of a group is retained *)

Lemma group_latest (df : list Trade) (k : key) :
  group trade_key k df <> [] ->
  exists i t,
    df !! i = Some t /\ trade_key t = k
    /\ (forall u, In u df -> trade_key u = k ->
          (block_number u <= block_number t)%Z)
    /\ (forall u, In u (take i df) -> trade_key u = k ->
          (block_number u < block_number t)%Z).
Proof.
  induction df as [| x df IH]; intros Hne; [done |].
  rewrite group_cons in Hne.
  destruct (group trade_key k df) as [| y ys] eqn:Eg.
  - destruct (key_eqb (trade_key x) k) eqn:Ek; [| done].
    apply key_eqb_eq in Ek. exists 0%nat, x.
    split; [done |]. split; [done |]. split; [| intros u []].
    intros u [<- | Hu] Hk; [lia |].
    assert (Hin : In u (group trade_key k df)) by now apply group_elem.
    now rewrite Eg in Hin.
  - destruct IH as (i & t & Hi & Hkt & Hmax & Hbefore); [done |].
    destruct (key_eqb (trade_key x) k) eqn:Ek.
    + apply key_eqb_eq in Ek.
      destruct (Z.le_gt_cases (block_number t) (block_number x)) as [Hle | Hgt].
      * exists 0%nat, x. split; [done |]. split; [done |].
        split; [| intros u []].
        intros u [<- | Hu] Hk; [lia |]. specialize (Hmax u Hu Hk). lia.
      * exists (S i), t. split; [done |]. split; [done |]. split.
        -- intros u [<- | Hu] Hk; [lia | now apply Hmax].
        -- intros u [<- | Hu] Hk; [lia | now apply Hbefore].
    + apply key_eqb_neq in Ek.
      exists (S i), t. split; [done |]. split; [done |]. split.
      * intros u [<- | Hu] Hk; [done | now apply Hmax].
      * intros u [<- | Hu] Hk; [done | now apply Hbefore].
Qed.

Lemma rank_first_descending_latest (df : list Trade) (i : nat) (t : Trade) :
  (forall u, In u df -> trade_key u = trade_key t ->
     (block_number u <= block_number t)%Z) ->
  (forall u, In u (take i df) -> trade_key u = trade_key t ->
     (block_number u < block_number t)%Z) ->
  rank_first_descending df i t = 1%Z.
Proof.
  intros Hmax Hbefore. unfold rank_first_descending.
  rewrite (filter_none _ df), (filter_none _ (take i df)); [done | |].
  - apply Forall_forall. intros u Hu%list_elem_of_In.
    destruct (key_eqb (trade_key u) (trade_key t)) eqn:E; [| done].
    apply key_eqb_eq in E. simpl. apply Z.eqb_neq.
    specialize (Hbefore u Hu E). lia.
  - apply Forall_forall. intros u Hu%list_elem_of_In.
    destruct (key_eqb (trade_key u) (trade_key t)) eqn:E; [| done].
    apply key_eqb_eq in E. simpl. apply Z.ltb_ge.
    now apply Hmax.
Qed.

Lemma retain_recent_latest (backtest lookback : Z) (df : list Trade)
    (k : key) :
  (1 < backtest + lookback * 2)%Z ->
  group trade_key k df <> [] ->
  exists t,
    In t (group trade_key k (retain_recent backtest lookback df))
    /\ forall u, In u (group trade_key k df) ->
         (block_number u <= block_number t)%Z.
Proof.
  intros Hb Hne.
  destruct (group_latest df k Hne) as (i & t & Hi & Hkt & Hmax & Hbefore).
  exists t. split.
  - apply group_elem. split; [| exact Hkt].
    unfold retain_recent. apply in_map_iff.
    exists (t, rank_first_descending df i t). split; [done |].
    apply filter_In. split.
    + apply list_elem_of_In, list_elem_of_lookup. exists i.
      now rewrite list_lookup_imap, Hi.
    + simpl. rewrite rank_first_descending_latest.
      * now apply Z.ltb_lt.
      * intros u Hu Hk. apply Hmax; [done | congruence].
      * intros u Hu Hk. apply Hbefore; [done | congruence].
  - intros u [Hu Hk]%group_elem. now apply Hmax.
Qed.

(** When the bound [backtest + 2 * lookback] exceeds 1, the retention
    filter keeps the rows in their order and never loses a group: of every
    group it keeps a trade with the greatest block number of the group. *)
Theorem retain_recent_keeps_latest (backtest lookback : Z) (df : list Trade) :
  (1 < backtest + lookback * 2)%Z ->
  retain_recent backtest lookback df `sublist_of` df
  /\ forall k, group trade_key k df <> [] ->
       exists t,
         In t (group trade_key k (retain_recent backtest lookback df))
         /\ forall u, In u (group trade_key k df) ->
              (block_number u <= block_number t)%Z.
Proof.
  intros Hb. split; [apply retain_recent_sublist |].
  intros k. now apply retain_recent_latest.
Qed.

Lemma retain_recent_keeps_latest_witness :
  retain_recent 1 1
    [sample_trade 1 1; sample_trade 2 2; sample_trade 3 3; sample_trade 4 4]
  `sublist_of`
    [sample_trade 1 1; sample_trade 2 2; sample_trade 3 3; sample_trade 4 4].
Proof.
  apply (retain_recent_keeps_latest 1 1
           [sample_trade 1 1; sample_trade 2 2; sample_trade 3 3;
            sample_trade 4 4]).
  lia.
Defined.

(** ** The records of the driver *)

Lemma lookback_window_nonempty (result : list Trade) (lookback : Z)
    (idx : nat) :
  (0 < lookback)%Z -> (idx < length result)%nat ->
  lookback_window result lookback idx <> [].
Proof.
  intros Hl Hidx. destruct idx as [| idx]; [done |].
  rewrite lookback_window_segment by lia.
  intros E. apply (f_equal length) in E.
  rewrite length_map, length_take, length_drop in E. simpl in E. lia.
Qed.

Lemma create_lookback_windows_nonempty (data : list Trade) (lookback : Z) :
  (0 < lookback)%Z ->
  Forall (fun r => log_prices_lookback r <> []) (create_lookback data lookback).
Proof.
  intros Hl. apply Forall_lookup. intros idx row Hrow.
  apply create_lookback_lookup_inv in Hrow as [Ht ->].
  apply lookback_window_nonempty; [done |]. now apply lookup_lt_Some in Ht.
Qed.

Lemma groupby_apply_Forall {A B} (key_of : A -> key) (f : list A -> list B)
    (P : B -> Prop) (df : list A) :
  (forall g, Forall P (f g)) -> Forall P (groupby_apply key_of f df).
Proof.
  intros H. unfold groupby_apply. apply Forall_forall.
  intros r (k & _ & Hr)%list_elem_of_In%in_flat_map.
  specialize (H (group key_of k df)). rewrite Forall_forall in H.
  now apply H, list_elem_of_In.
Qed.

Lemma groupby_apply_elem {A} (key_of : A -> key) (f : list A -> list A)
    (df : list A) (r : A) :
  (forall g x, In x (f g) -> In x g) ->
  In r (groupby_apply key_of f df) -> In r df.
Proof.
  intros H (k & _ & Hr)%in_flat_map.
  apply H, group_elem in Hr. tauto.
Qed.

Lemma slice_from_elem {A} (start : Z) (g : list A) (x : A) :
  In x (Py.slice_from start g) -> In x g.
Proof.
  unfold Py.slice_from, Py.slice. intros H%list_elem_of_In.
  apply list_elem_of_In.
  eapply elem_of_sublist; [| apply sublist_drop].
  eapply elem_of_sublist; [exact H | apply sublist_take].
Qed.

Lemma Forall2_elem_r {A B} (R : A -> B -> Prop) (l : list A) (l' : list B)
    (b : B) :
  Forall2 R l l' -> In b l' -> exists a, In a l /\ R a b.
Proof.
  induction 1 as [| a0 b0 l l' Hab _ IH]; intros Hin; [done |].
  destruct Hin as [<- | Hin].
  - exists a0. split; [now left | done].
  - destruct (IH Hin) as (a & Ha & HR). exists a. split; [now right | done].
Qed.

Lemma dropna_map_Some (l : list Q) : dropna (map Some l) = l.
Proof.
  unfold dropna. induction l as [| x l IH]; [done |].
  simpl. f_equal. exact IH.
Qed.

Lemma adjust_row_inv (table : list GroupStats) (s : ScoredRow)
    (a : AdjustedRow) :
  adjust_row table s = Py.Ok a ->
  scored_row a = s
  /\ List.find (fun g => key_eqb (stats_key g) (scored_key s)) table
     = Some (stats a)
  /\ compute_quantile (map Some (log_prices_lookback_no_outliers s))
       (quantile_adj (stats a)) = Py.Ok (log_price_adj a).
Proof.
  unfold adjust_row. destruct (List.find _ _) as [g |]; [| discriminate].
  destruct (compute_quantile _ _) as [v |] eqn:Ev; simpl; [| discriminate].
  intros [= <-]. done.
Qed.

Section DriverRecords.
Context (np_log np_exp : Q -> Q).

(** The stages of [main] up to the two row-wise passes. *)
Lemma main_stages (csv : list CsvRow) :
  exists df5 df6,
    let df2 := retain_recent BACKTEST LOOKBACK (preprocess np_log csv) in
    let df3 :=
      groupby_apply trade_key (fun x => create_lookback x LOOKBACK) df2 in
    let df4 :=
      groupby_apply lookback_key (Py.slice_from (- BACKTEST)) df3 in
    Forall2 (fun r s => score_row r = Py.Ok s) df4 df5
    /\ Forall2 (fun s a => adjust_row (grouped df5) s = Py.Ok a) df5 df6
    /\ main np_log np_exp csv
       = Py.Ok (map (estimate np_exp)
                  (groupby_apply adjusted_key (Py.slice_from (-1)) df6)).
Proof.
  unfold main.
  match goal with |- context [Py.for_each score_row ?df] =>
    destruct (for_each_ok score_row df) as [df5 H5];
      [intros; apply score_row_ok |] end.
  destruct (for_each_ok (adjust_row (grouped df5)) df5) as [df6 H6];
    [intros; now apply adjust_row_ok |].
  exists df5, df6. cbv zeta. rewrite H5. simpl. rewrite H6. simpl.
  split; [now apply for_each_inv |]. split; [now apply for_each_inv | done].
Qed.

Lemma main_rows_have_history (csv : list CsvRow) :
  Forall (fun r => log_prices_lookback r <> [])
    (groupby_apply lookback_key (Py.slice_from (- BACKTEST))
       (groupby_apply trade_key (fun x => create_lookback x LOOKBACK)
          (retain_recent BACKTEST LOOKBACK (preprocess np_log csv)))).
Proof.
  apply Forall_forall. intros r Hr%list_elem_of_In.
  apply groupby_apply_elem in Hr; [| intros g x; apply slice_from_elem].
  pose proof (groupby_apply_Forall trade_key
                (fun x => create_lookback x LOOKBACK)
                (fun r => log_prices_lookback r <> [])
                (retain_recent BACKTEST LOOKBACK (preprocess np_log csv))) as H.
  rewrite Forall_forall in H. apply H; [| now apply list_elem_of_In].
  intros g. now apply create_lookback_windows_nonempty.
Qed.

(** The estimate of every record. *)
Lemma main_record_estimate (csv : list CsvRow) (records : list Estimate)
    (e : Estimate) :
  main np_log np_exp csv = Py.Ok records -> In e records ->
  exists v a b,
    log_price_adj (adjusted_row e) = Some v
    /\ floor_price_est e = Some (np_exp v)
    /\ a ∈ log_prices_lookback (lookback_row (scored_row (adjusted_row e)))
    /\ b ∈ log_prices_lookback (lookback_row (scored_row (adjusted_row e)))
    /\ a <= v /\ v <= b.
Proof.
  intros Hmain He.
  destruct (main_stages csv) as (df5 & df6 & H5 & H6 & Hm). cbv zeta in *.
  rewrite Hm in Hmain. injection Hmain as <-.
  apply in_map_iff in He as (a6 & <- & Ha6).
  apply groupby_apply_elem in Ha6; [| intros g x; apply slice_from_elem].
  destruct (Forall2_elem_r _ _ _ _ H6 Ha6) as (s & Hs & Hadj).
  destruct (Forall2_elem_r _ _ _ _ H5 Hs) as (r & Hr & Hsc).
  pose proof (main_rows_have_history csv) as Hhist.
  rewrite Forall_forall in Hhist.
  specialize (Hhist r (proj2 (list_elem_of_In _ _) Hr)).
  apply score_row_inv in Hsc as [Hrow Hno].
  apply adjust_row_inv in Hadj as (Hsr & Hfind & Hq).
  rewrite (adjust_row_find df5 s Hs) in Hfind. injection Hfind as Hstats.
  rewrite <- Hstats in Hq.
  destruct (quantile_adj_range df5 (scored_key s)) as [Hq0 Hq1].
  assert (Hne : dropna (map Some (log_prices_lookback_no_outliers s)) <> []).
  { rewrite dropna_map_Some, Hno. now apply remove_outliers_nonempty. }
  destruct (compute_quantile_in_range _ _ Hne Hq0 Hq1)
    as (v & a & b & Hv & Ha & Hb & Hav & Hvb).
  rewrite Hv in Hq. injection Hq as Hq.
  rewrite dropna_map_Some, Hno in Ha, Hb.
  exists v, a, b. simpl. rewrite <- Hq, Hsr, Hrow.
  split; [done |]. split; [done |].
  split; [eapply elem_of_sublist; [exact Ha |]; apply remove_outliers_sublist |].
  split; [eapply elem_of_sublist; [exact Hb |]; apply remove_outliers_sublist |].
  done.
Qed.

End DriverRecords.

(** On a table with at least one trade of positive price, the driver
    raises nothing, and the estimate of every record is a number, never
    NaN: the adjusted log price lies between two log prices of the lookback
    window of the record's trade, and the floor price estimate is its
    exponential. *)
Theorem main_estimates_are_numbers (np_log np_exp : Q -> Q)
    (csv : list CsvRow) :
  List.filter (fun r => Py.ltb 0 (price_eth r)) csv <> [] ->
  exists records,
    main np_log np_exp csv = Py.Ok records
    /\ forall e, In e records ->
         exists v a b,
           log_price_adj (adjusted_row e) = Some v
           /\ floor_price_est e = Some (np_exp v)
           /\ a ∈ log_prices_lookback
                    (lookback_row (scored_row (adjusted_row e)))
           /\ b ∈ log_prices_lookback
                    (lookback_row (scored_row (adjusted_row e)))
           /\ a <= v /\ v <= b.
Proof.
  intros _.
  destruct (main_stages np_log np_exp csv) as (df5 & df6 & _ & _ & Hm).
  eexists. split; [exact Hm |].
  intros e He. eapply main_record_estimate; [exact Hm | exact He].
Qed.

Lemma main_estimates_are_numbers_witness :
  exists records,
    main (fun x => x) (fun x => x)
      [sample_csv_row "0xb" 7 3; sample_csv_row "0xa" 7 3;
       sample_csv_row "0xb" 8 5] = Py.Ok records.
Proof.
  destruct (main_estimates_are_numbers (fun x => x) (fun x => x)
              [sample_csv_row "0xb" 7 3; sample_csv_row "0xa" 7 3;
               sample_csv_row "0xb" 8 5])
    as (records & H & _).
  - discriminate.
  - exists records. exact H.
Defined.

(** ** One record for every collection *)

Lemma slice_from_negative {A} (start : Z) (g : list A) :
  (start < 0)%Z ->
  Py.slice_from start g
  = drop (Z.to_nat (Z.max 0 (start + Z.of_nat (length g)))) g.
Proof.
  intros H. unfold Py.slice_from, Py.slice, Py.slice_bound.
  destruct (Z.ltb_spec start 0); [| lia].
  destruct (Z.ltb_spec (Z.of_nat (length g)) 0); [lia |].
  apply take_ge. rewrite length_drop. lia.
Qed.

Lemma last_slice_from {A} (start : Z) (g : list A) :
  (start < 0)%Z -> last (Py.slice_from start g) = last g.
Proof.
  intros H. rewrite slice_from_negative by done.
  destruct g as [| x g]; [now rewrite drop_nil |].
  rewrite !last_lookup, lookup_drop, length_drop. f_equal.
  simpl length. lia.
Qed.

Lemma slice_from_last {A} (g : list A) (x : A) :
  last g = Some x -> Py.slice_from (-1) g = [x].
Proof.
  intros (l & ->)%last_Some. rewrite slice_from_negative by done.
  rewrite length_app. simpl length.
  replace (Z.to_nat (Z.max 0 (-1 + Z.of_nat (length l + 1))))
    with (length l) by lia.
  now rewrite drop_app_length.
Qed.

Lemma Forall2_last {A B} (R : A -> B -> Prop) (l : list A) (l' : list B)
    (a : A) :
  Forall2 R l l' -> last l = Some a -> exists b, last l' = Some b /\ R a b.
Proof.
  induction 1 as [| a0 b0 l l' Hab H IH]; [simpl; intros; discriminate |].
  destruct H as [| a1 b1 l l' Hab1 H]; simpl.
  - intros [= <-]. eauto.
  - intros Hl. apply IH. exact Hl.
Qed.

Lemma sorted_last_is_latest (l : list Trade) (x : Trade) :
  Sorted (fun a b => (block_number a <= block_number b)%Z) l ->
  last l = Some x ->
  forall u, In u l -> (block_number u <= block_number x)%Z.
Proof.
  intros Hs. apply Sorted_StronglySorted in Hs; [| intros a b c; lia].
  induction Hs as [| y l Hs IH Hy]; [done |].
  destruct l as [| z l].
  - intros [= <-] u [<- | []]. lia.
  - intros Hl u [<- | Hu].
    + rewrite Forall_forall in Hy. apply Hy.
      change (last (y :: z :: l)) with (last (z :: l)) in Hl.
      apply last_Some in Hl as (l0 & ->).
      apply list_elem_of_In, in_or_app. right. now left.
    + now apply IH.
Qed.

Lemma last_is_Some {A} (l : list A) : l <> [] -> exists x, last l = Some x.
Proof.
  intros H. destruct (last l) as [x |] eqn:E; [eauto |].
  now apply last_None in E.
Qed.

Lemma sort_by_block_number_perm (data : list Trade) :
  Permutation (sort_by_block_number data) data.
Proof. apply sort_perm. Qed.

Section DriverGroups.
Context (np_log np_exp : Q -> Q).

Lemma preprocess_group_perm (csv : list CsvRow) (k : key) :
  Permutation (group trade_key k (preprocess np_log csv))
    (map (with_log_price np_log)
       (List.filter
          (fun x => Py.ltb 0 (price_eth x) && key_eqb (csv_key x) k) csv)).
Proof.
  unfold preprocess, group.
  rewrite (filter_perm _ _ _ (sort_perm trade_leb _)).
  now rewrite filter_map_swap, filter_andb.
Qed.

(** The records of one collection. *)
Lemma main_group_record (csv : list CsvRow) (records : list Estimate)
    (k : key) :
  main np_log np_exp csv = Py.Ok records ->
  let trades :=
    List.filter
      (fun x => Py.ltb 0 (price_eth x) && key_eqb (csv_key x) k) csv in
  (trades = [] ->
   group (fun e => adjusted_key (adjusted_row e)) k records = [])
  /\ (trades <> [] ->
      exists e r,
        group (fun e => adjusted_key (adjusted_row e)) k records = [e]
        /\ In r trades
        /\ trade (lookback_row (scored_row (adjusted_row e)))
           = with_log_price np_log r
        /\ forall r', In r' trades ->
             (csv_block_number r' <= csv_block_number r)%Z).
Proof.
  intros Hmain trades.
  destruct (main_stages np_log np_exp csv) as (df5 & df6 & H5 & H6 & Hm).
  cbv zeta in *. rewrite Hm in Hmain. injection Hmain as <-.
  pose proof (preprocess_group_perm csv k) as P1. fold trades in P1.
  set (df1 := preprocess np_log csv) in *.
  set (df2 := retain_recent BACKTEST LOOKBACK df1) in *.
  set (df3 := groupby_apply trade_key (fun x => create_lookback x LOOKBACK) df2)
    in *.
  set (df4 := groupby_apply lookback_key (Py.slice_from (- BACKTEST)) df3) in *.
  assert (S2 : group trade_key k df2 `sublist_of` group trade_key k df1)
    by apply filter_sublist, retain_recent_sublist.
  assert (G3 : group lookback_key k df3
               = create_lookback (group trade_key k df2) LOOKBACK).
  { unfold df3. rewrite group_groupby_apply; [done | done |].
    intros g k'. apply create_lookback_keys. }
  assert (G4 : group lookback_key k df4
               = Py.slice_from (- BACKTEST) (group lookback_key k df3)).
  { unfold df4. rewrite group_groupby_apply;
      [done | apply slice_from_nil |].
    intros g k'. apply slice_from_keys. }
  pose proof (for_each_group score_row lookback_key scored_key df4 df5 k
                score_row_key H5) as F5.
  pose proof (for_each_group (adjust_row (grouped df5)) scored_key adjusted_key
                df5 df6 k (adjust_row_key _) H6) as F6.
  assert (G7 : group (fun e => adjusted_key (adjusted_row e)) k
                 (map (estimate np_exp)
                    (groupby_apply adjusted_key (Py.slice_from (-1)) df6))
               = map (estimate np_exp)
                   (Py.slice_from (-1) (group adjusted_key k df6))).
  { unfold group at 1. rewrite filter_map_swap. f_equal.
    change (List.filter _ ?l) with (group adjusted_key k l).
    rewrite group_groupby_apply; [done | apply slice_from_nil |].
    intros g k'. apply slice_from_keys. }
  rewrite G7. split.
  - intros E. rewrite E in P1. apply Permutation_nil_r in P1.
    rewrite P1 in S2. apply sublist_nil_r in S2.
    rewrite S2 in G3. change (create_lookback [] LOOKBACK) with
      (@nil LookbackRow) in G3.
    rewrite G3, slice_from_nil in G4. rewrite G4 in F5.
    apply Forall2_nil_inv_l in F5. rewrite F5 in F6.
    apply Forall2_nil_inv_l in F6. now rewrite F6.
  - intros Hne.
    assert (Hg1 : group trade_key k df1 <> []).
    { intros E. rewrite E in P1. symmetry in P1.
      apply Permutation_nil_r in P1.
      destruct trades; [done | discriminate]. }
    destruct (retain_recent_latest BACKTEST LOOKBACK df1 k ltac:(done) Hg1)
      as (tmax & Htmax & Hmax). fold df2 in Htmax.
    assert (Hg3 : group lookback_key k df3 <> []).
    { rewrite G3. intros E. apply (f_equal length) in E.
      rewrite create_lookback_length in E.
      destruct (group trade_key k df2); [done | discriminate]. }
    destruct (last_is_Some _ Hg3) as [r3 Hr3].
    assert (Hr4 : last (group lookback_key k df4) = Some r3)
      by now rewrite G4, last_slice_from.
    destruct (Forall2_last _ _ _ _ F5 Hr4) as (s & Hs & Hsc).
    destruct (Forall2_last _ _ _ _ F6 Hs) as (a & Ha & Hadj).
    rewrite (slice_from_last _ _ Ha).
    apply score_row_inv in Hsc as [Hrow _].
    apply adjust_row_inv in Hadj as [Hsr _].
    (** the trade of the last row is the latest of the group *)
    pose proof (create_lookback_trades (group trade_key k df2) LOOKBACK) as Ht.
    rewrite <- G3 in Ht.
    assert (Hlast : last (sort_by_block_number (group trade_key k df2))
                    = Some (trade r3)).
    { rewrite <- Ht. change (map trade ?l) with (trade <$> l).
      now rewrite fmap_last, Hr3. }
    pose proof (sorted_last_is_latest _ _
                  (sort_by_block_number_ascending _) Hlast) as Hlatest.
    assert (Hin2 : In (trade r3) (group trade_key k df2)).
    { apply (Permutation_in _
               (sort_by_block_number_perm (group trade_key k df2))).
      apply last_Some in Hlast as (l0 & E). rewrite E.
      apply in_or_app. right. now left. }
    assert (Hin1 : In (trade r3) (group trade_key k df1)).
    { apply list_elem_of_In. eapply elem_of_sublist; [| exact S2].
      now apply list_elem_of_In. }
    apply (Permutation_in _ P1), in_map_iff in Hin1 as (r & Er & Hr).
    exists (estimate np_exp a), r. split; [done |]. split; [exact Hr |].
    split; [simpl; now rewrite Hsr, Hrow |].
    intros r' Hr'.
    assert (Hin' : In (with_log_price np_log r') (group trade_key k df1)).
    { apply (Permutation_in _ (Permutation_sym P1)). now apply in_map. }
    specialize (Hmax _ Hin').
    assert (Hle : (block_number tmax <= block_number (trade r3))%Z).
    { apply Hlatest.
      apply (Permutation_in _ (Permutation_sym
               (sort_by_block_number_perm (group trade_key k df2)))), Htmax. }
    rewrite <- Er in Hle. simpl in Hmax, Hle. lia.
Qed.

End DriverGroups.

(** The driver returns exactly one record for every collection that has a
    trade of positive price, and none for any other key.  The record is
    computed at a trade of the collection with the greatest block number
    among its trades of positive price. *)
Theorem main_one_record_per_group (np_log np_exp : Q -> Q)
    (csv : list CsvRow) (records : list Estimate) (k : key) :
  main np_log np_exp csv = Py.Ok records ->
  (List.filter (fun x => Py.ltb 0 (price_eth x) && key_eqb (csv_key x) k) csv
   = [] ->
   group (fun e => adjusted_key (adjusted_row e)) k records = [])
  /\ (List.filter
        (fun x => Py.ltb 0 (price_eth x) && key_eqb (csv_key x) k) csv
      <> [] ->
      exists e r,
        group (fun e => adjusted_key (adjusted_row e)) k records = [e]
        /\ In r (List.filter
                   (fun x => Py.ltb 0 (price_eth x)
                             && key_eqb (csv_key x) k) csv)
        /\ trade (lookback_row (scored_row (adjusted_row e)))
           = with_log_price np_log r
        /\ forall r',
             In r' (List.filter
                      (fun x => Py.ltb 0 (price_eth x)
                                && key_eqb (csv_key x) k) csv) ->
             (csv_block_number r' <= csv_block_number r)%Z).
Proof. intros H. exact (main_group_record np_log np_exp csv records k H). Qed.

Lemma main_one_record_per_group_witness :
  exists e,
    group (fun e => adjusted_key (adjusted_row e)) (1%Z, "0xb"%string)
      (match main (fun x => x) (fun x => x)
               [sample_csv_row "0xb" 7 3; sample_csv_row "0xa" 7 3;
                sample_csv_row "0xb" 8 5] with
       | Py.Ok records => records
       | Py.Raise _ => []
       end) = [e]
    /\ block_number (trade (lookback_row (scored_row (adjusted_row e)))) = 8%Z.
Proof.
  destruct (main_stages (fun x => x) (fun x => x)
              [sample_csv_row "0xb" 7 3; sample_csv_row "0xa" 7 3;
               sample_csv_row "0xb" 8 5]) as (df5 & df6 & _ & _ & Hm).
  cbv zeta in Hm. rewrite Hm.
  destruct (proj2 (main_one_record_per_group (fun x => x) (fun x => x)
              [sample_csv_row "0xb" 7 3; sample_csv_row "0xa" 7 3;
               sample_csv_row "0xb" 8 5] _ (1%Z, "0xb"%string) Hm))
    as (e & r & He & Hr & Ht & Hmax).
  - discriminate.
  - exists e. split; [exact He |]. rewrite Ht.
    simpl in Hr. destruct Hr as [<- | [<- | []]].
    + specialize (Hmax (sample_csv_row "0xb" 8 5)). simpl in Hmax.
      exfalso. assert (8 <= 7)%Z by (apply Hmax; tauto). lia.
    + reflexivity.
Defined.

(** ** The evaluation window of a large collection *)

Lemma lookback_window_full (result : list Trade) (lookback : Z) (idx : nat) :
  (0 <= lookback)%Z -> (Z.to_nat lookback <= idx < length result)%nat ->
  (0 < idx)%nat ->
  length (lookback_window result lookback idx) = Z.to_nat lookback.
Proof.
  intros Hl Hidx Hpos. rewrite lookback_window_segment by lia.
  rewrite length_map, length_take, length_drop. lia.
Qed.

Lemma slice_from_lookup {A} (start : Z) (g : list A) (x : A) :
  (start < 0)%Z -> In x (Py.slice_from start g) ->
  exists idx, g !! idx = Some x
              /\ (Z.of_nat (length g) + start <= Z.of_nat idx)%Z.
Proof.
  intros Hs Hx. rewrite slice_from_negative in Hx by done.
  apply list_elem_of_In, list_elem_of_lookup in Hx as [i Hi].
  rewrite lookup_drop in Hi. eexists. split; [exact Hi |]. lia.
Qed.

(** The two stages "creating lookback" and "restricting to backtest
    window", for any window sizes: when a collection holds at least
    [backtest + lookback] trades, every row of its evaluation window (its
    last [backtest] rows) has a full lookback window of [lookback] log
    prices, and the sentinel row is not among them.  In the driver this is
    the case of the collections that keep at least [800 + 140 = 940]
    trades. *)
Theorem evaluation_rows_have_full_windows (backtest lookback : Z)
    (df : list Trade) (k : key) (row : LookbackRow) :
  (0 < backtest)%Z -> (0 < lookback)%Z ->
  (backtest + lookback <= Z.of_nat (length (group trade_key k df)))%Z ->
  In row
    (group lookback_key k
       (groupby_apply lookback_key (Py.slice_from (- backtest))
          (groupby_apply trade_key (fun x => create_lookback x lookback)
             df))) ->
  length (log_prices_lookback row) = Z.to_nat lookback
  /\ (lookback <= trade_id row)%Z.
Proof.
  intros Hb Hl Hn Hrow.
  rewrite group_groupby_apply in Hrow;
    [| apply slice_from_nil | intros g k'; apply slice_from_keys].
  rewrite group_groupby_apply in Hrow;
    [| done | intros g k'; apply create_lookback_keys].
  apply slice_from_lookup in Hrow as (idx & Hidx & Hge); [| lia].
  rewrite create_lookback_length in Hge.
  pose proof (create_lookback_lookup_inv _ _ _ _ Hidx) as [Ht Hw].
  pose proof (lookup_lt_Some _ _ _ Ht) as Hlt.
  assert (Hid : trade_id row = Z.of_nat idx).
  { rewrite (create_lookback_lookup _ lookback idx _ Ht) in Hidx.
    now injection Hidx as <-. }
  split; [| lia].
  rewrite Hw. apply lookback_window_full; lia.
Qed.

Lemma evaluation_rows_have_full_windows_witness :
  length (log_prices_lookback
            {| trade := sample_trade 2 2;
               log_prices_lookback := [1];
               trade_id := 1 |}) = 1%nat.
Proof.
  apply (evaluation_rows_have_full_windows 1 1
           [sample_trade 1 1; sample_trade 2 2] (1%Z, "0xa"%string)).
  - lia.
  - lia.
  - simpl. lia.
  - vm_compute. left. reflexivity.
Defined.
